(** * flipperzero-game-engine: the frame loop of [game_engine.c]

    A shallow embedding of [src/game_engine.c]: the engine settings and
    allocation, the input latch ([input_events_callback]), the frame loop
    ([game_engine_run]) and the two accessors of the running engine
    ([running_game_engine_get_delta_time],
    [running_game_engine_get_delta_frames]).

    - [uint32_t] values are integers of [Z] with the wrap-around written
      out ([U32.wrap]).
    - [float] values are IEEE-754 binary32 numbers, represented with the
      specification floats of the standard library ([spec_float] at
      precision 24 and maximal exponent 128), so that every operation
      computes.
    - the collaborators (GUI, pubsub, timer, thread flags, cycle counter)
      are not executed: the loop takes the sequence of what the wait
      primitive, the cycle counter and the input channel deliver, and
      returns the sequence of calls it makes on the collaborators. *)

From Stdlib Require Import ZArith Lia List Bool String.
From Stdlib Require Import Floats.SpecFloat.
Import ListNotations.
Local Open Scope Z_scope.

(* ================================================================== *)
(** ** 32-bit unsigned integers *)

Module U32.

Definition modulus : Z := 2 ^ 32.

(** Conversion to [uint32_t]: reduction modulo [2^32]. *)
Definition wrap (z : Z) : Z := z mod modulus.

(** [a - b] on [uint32_t]. *)
Definition sub (a b : Z) : Z := wrap (a - b).

(** [~a] on [uint32_t] (also [~a] on [int], converted to [uint32_t]). *)
Definition not (a : Z) : Z := wrap (Z.lnot a).

(** [a |= k] and [a &= ~k] where [k] is an [int]-typed enumerator. *)
Definition or_assign (a k : Z) : Z := Z.lor a (wrap k).
Definition and_not_assign (a k : Z) : Z := Z.land a (not k).

Definition in_range (z : Z) : Prop := 0 <= z < modulus.

End U32.

(* ================================================================== *)
(** ** Single-precision floats *)

Module F32.

Definition prec : Z := 24.
Definition emax : Z := 128.

Definition float32 : Type := spec_float.

(** [(float)n] for an [uint32_t] [n] (round to nearest, ties to even). *)
Definition of_u32 (n : Z) : float32 := binary_normalize prec emax n 0 false.

(** [x / y] on [float]. *)
Definition div (x y : float32) : float32 := SFdiv prec emax x y.

(** The literals of the source. *)
Definition zero : float32 := S754_zero false.
Definition one : float32 := S754_finite false 8388608 (-23).
Definition two : float32 := S754_finite false 8388608 (-22).
Definition sixty : float32 := S754_finite false 15728640 (-18).

Definition is_finite (x : float32) : bool :=
  match x with
  | S754_zero _ | S754_finite _ _ _ => true
  | S754_infinity _ | S754_nan => false
  end.

(** A float that is a number other than zero, neither infinite nor NaN. *)
Definition is_finite_nonzero (x : float32) : bool :=
  match x with
  | S754_finite _ _ _ => true
  | _ => false
  end.

Definition valid (x : float32) : bool := valid_binary prec emax x.

(** [x] is exactly twice [y], as numbers: both are finite with the same
    sign and [mx * 2^ex = 2 * my * 2^ey].  The exponents are compared
    after shifting them by the least exponent of the format, so that the
    powers are powers of natural numbers. *)
Definition is_twice (x y : float32) : Prop :=
  match x, y with
  | S754_finite sx mx ex, S754_finite sy my ey =>
      sx = sy /\
      Z.pos mx * 2 ^ (ex - emin prec emax) =
      2 * (Z.pos my * 2 ^ (ey - emin prec emax))
  | _, _ => False
  end.

(** [(uint32_t)roundf(x)]: [roundf] rounds to the nearest integer, halfway
    cases away from zero; the conversion to [uint32_t] is defined by C
    only when the rounded value is in the range of the type.  [None]
    stands for a conversion that C leaves undefined. *)
Definition roundf_magnitude (m : positive) (e : Z) : Z :=
  match e with
  | Zneg p => (Z.pos m + 2 ^ (Z.pos p - 1)) / 2 ^ Z.pos p
  | _ => Z.pos m * 2 ^ e
  end.

Definition roundf_to_u32 (x : float32) : option Z :=
  match x with
  | S754_zero _ => Some 0
  | S754_finite s m e =>
      let r := roundf_magnitude m e in
      if r =? 0 then Some 0
      else if s then None
      else if r <? U32.modulus then Some r else None
  | S754_infinity _ | S754_nan => None
  end.

End F32.

Abbreviation float32 := F32.float32.

(* ================================================================== *)
(** ** The data of the engine *)

(** Opaque references of the firmware and of the client. *)
Definition Handle : Type := Z.
Definition Callback : Type := positive.

(** [GameEngineSettings]; a [NULL] pointer is [None]. *)
Record GameEngineSettings := {
  fps : float32;
  show_fps : bool;
  callback : option Callback;
  context : option Handle;
}.

Definition game_engine_settings_init : GameEngineSettings :=
  {| fps := F32.sixty; show_fps := false; callback := None; context := None |}.

(** [struct GameEngine]. *)
Record GameEngine := {
  gui : Handle;
  input_pubsub : Handle;
  thread_id : Handle;
  settings : GameEngineSettings;
}.

(** [struct RunningGameEngine]; [run_fps] is its field [fps], the frame
    rate measured for the current frame. *)
Record RunningGameEngine := {
  engine : GameEngine;
  run_fps : float32;
}.

(** [InputState], three masks over the logical keys. *)
Record InputState := {
  held : Z;
  pressed : Z;
  released : Z;
}.

Definition GameThreadFlagUpdate : Z := Z.shiftl 1 0.
Definition GameThreadFlagStop : Z := Z.shiftl 1 1.
Definition GameThreadFlagMask : Z := Z.lor GameThreadFlagUpdate GameThreadFlagStop.

(** The raw keys of the input service and the logical keys of the engine,
    as the table [keys] names them. *)
Inductive InputKey :=
  InputKeyUp | InputKeyDown | InputKeyRight | InputKeyLeft | InputKeyOk | InputKeyBack.

Inductive GameKey :=
  GameKeyUp | GameKeyDown | GameKeyRight | GameKeyLeft | GameKeyOk | GameKeyBack.

(** The transition of an input event: the two the callback acts on, and
    any other enumerator (short, long, repeat, ...) by its number. *)
Inductive InputType :=
  | InputTypePress
  | InputTypeRelease
  | InputTypeOther (code : Z).

(** [InputEvent]; [key] is the number stored in the enumeration field. *)
Record InputEvent := {
  key : Z;
  type : InputType;
}.

(** What the source takes from headers that are outside [game_engine.c]:
    the core clock frequency (CMSIS), the error bit of the thread flags,
    the numbers of the raw keys (firmware) and the values of the logical
    keys ([game_engine.h]). *)
Record Platform := {
  SystemCoreClock : Z;
  FuriFlagError : Z;
  InputKey_code : InputKey -> nat;
  GameKey_value : GameKey -> Z;
}.

(** The records and the thread the allocation looks up. *)
Record Furi := {
  RECORD_GUI : Handle;
  RECORD_INPUT_EVENTS : Handle;
  furi_thread_get_current_id : Handle;
}.

(** A computation guarded by [furi_check]. *)
Inductive Checked (A : Type) :=
  | Ok (a : A)
  | FuriCheckFailed.
Arguments Ok {A} a.
Arguments FuriCheckFailed {A}.

Definition furi_check {A : Type} (cond : bool) (k : Checked A) : Checked A :=
  if cond then k else FuriCheckFailed.

Definition game_engine_alloc (os : Furi) (s : GameEngineSettings) : Checked GameEngine :=
  furi_check (match callback s with Some _ => true | None => false end)
    (Ok {| gui := RECORD_GUI os;
           input_pubsub := RECORD_INPUT_EVENTS os;
           thread_id := furi_thread_get_current_id os;
           settings := s |}).

(* ================================================================== *)
(** ** The input latch *)

(** An array built by designated initializers: as long as the largest
    index plus one, zero where no initializer names the index, and the
    last initializer wins. *)
Fixpoint array_set (i : nat) (v : Z) (a : list Z) : list Z :=
  match a, i with
  | [], _ => []
  | _ :: t, O => v :: t
  | h :: t, S j => h :: array_set j v t
  end.

Definition designated (inits : list (nat * Z)) : list Z :=
  let size := fold_right (fun iv n => Nat.max (S (fst iv)) n) O inits in
  fold_left (fun a iv => array_set (fst iv) (snd iv) a) inits (repeat 0 size).

Section Latch.

Variable P : Platform.

Definition keys : list Z :=
  designated
    [ (InputKey_code P InputKeyUp, GameKey_value P GameKeyUp);
      (InputKey_code P InputKeyDown, GameKey_value P GameKeyDown);
      (InputKey_code P InputKeyRight, GameKey_value P GameKeyRight);
      (InputKey_code P InputKeyLeft, GameKey_value P GameKeyLeft);
      (InputKey_code P InputKeyOk, GameKey_value P GameKeyOk);
      (InputKey_code P InputKeyBack, GameKey_value P GameKeyBack) ].

Definition keys_count : Z := Z.of_nat (List.length keys).

(** [keys[i]] for an index inside the table. *)
Definition keys_at (i : Z) : Z := nth (Z.to_nat i) keys 0.

(** [input_events_callback]: the new value of the accumulator
    [*input_state].  The comparison [event->key < keys_count] is made
    on [size_t]. *)
Definition input_events_callback (event : InputEvent) (input_state : Z) : Z :=
  let k := U32.wrap (key event) in
  if k <? keys_count then
    match type event with
    | InputTypePress => U32.or_assign input_state (keys_at k)
    | InputTypeRelease => U32.and_not_assign input_state (keys_at k)
    | InputTypeOther _ => input_state
    end
  else input_state.

(** The events the input channel delivers, in order. *)
Definition deliver (events : list InputEvent) (input_state : Z) : Z :=
  fold_left (fun acc ev => input_events_callback ev acc) events input_state.

End Latch.

(* ================================================================== *)
(** ** The frame loop *)

(** The calls the loop makes on its collaborators, in order. *)
Inductive Effect :=
  | GuiDirectDrawAcquire (g : Handle)
  | FuriPubsubSubscribe (pubsub : Handle)
  | ClockTimerStart (rate : float32)
  | CanvasReset
  | ClientCallback (cb : Callback) (run : RunningGameEngine)
                   (input : InputState) (ctx : option Handle)
  | CanvasSetColorXOR
  | CanvasPrintf (x y : Z) (format : string) (arg : option Z)
  | CanvasCommit
  | ClockTimerStop
  | GuiDirectDrawRelease (g : Handle)
  | FuriPubsubUnsubscribe (pubsub : Handle).

(** One return of [furi_thread_flags_wait]: the flags it returns, the
    input events delivered to the subscription since the previous return,
    and the value of the cycle counter [DWT->CYCCNT] read in the frame. *)
Record Wake := {
  flags : Z;
  events : list InputEvent;
  cyccnt : Z;
}.

(** The local variables of [game_engine_run]. *)
Record Locals := {
  run : RunningGameEngine;
  input_state : Z;
  input_prev_state : Z;
  time_start : Z;
}.

(** How a call of [game_engine_run] ends: it returns, a [furi_check]
    fails, it calls a [NULL] callback, or it stays in the wait because
    nothing more is delivered. *)
Inductive Outcome :=
  | Returned
  | CheckFailed
  | NullCallback
  | Waiting.

Definition flag_set (word flag : Z) : bool := negb (Z.land word flag =? 0).

(** The initializer of [input] in the frame. *)
Definition read_input (input_current_state input_prev_state : Z) : InputState :=
  {| held := input_current_state;
     pressed := Z.land input_current_state (U32.not input_prev_state);
     released := Z.land (U32.not input_current_state) input_prev_state |}.

(** [time_end - time_start] on [uint32_t]. *)
Definition time_delta_of (time_end time_start : Z) : Z := U32.sub time_end time_start.

(** [(float)SystemCoreClock / time_delta]. *)
Definition actual_fps (clock time_delta : Z) : float32 :=
  F32.div (F32.of_u32 (U32.wrap clock)) (F32.of_u32 time_delta).

Definition initial_locals (e : GameEngine) (cyccnt0 : Z) : Locals :=
  {| run := {| engine := e; run_fps := F32.zero |};
     input_state := 0;
     input_prev_state := 0;
     time_start := U32.wrap cyccnt0 |}.

Section Loop.

Variable P : Platform.
Variable e : GameEngine.

(** The body of [if(flags & GameThreadFlagUpdate)]: the calls made and
    the locals afterwards, or [None] for them when the callback is
    [NULL]. *)
Definition frame (w : Wake) (l : Locals) : list Effect * option Locals :=
  let time_end := U32.wrap (cyccnt w) in
  let time_delta := time_delta_of time_end (time_start l) in
  let input_current_state := input_state l in
  let input := read_input input_current_state (input_prev_state l) in
  let run' := {| engine := engine (run l);
                 run_fps := actual_fps (SystemCoreClock P) time_delta |} in
  match callback (settings e) with
  | None => ([CanvasReset], None)
  | Some cb =>
      ([CanvasReset; ClientCallback cb run' input (context (settings e))]
         ++ (if show_fps (settings e)
             then [CanvasSetColorXOR;
                   CanvasPrintf 0 7 "%u" (F32.roundf_to_u32 (run_fps run'))]
             else [])
         ++ [CanvasCommit],
       Some {| run := run';
               input_state := input_current_state;
               input_prev_state := input_current_state;
               time_start := time_end |})
  end.

(** The [while(true)] loop over the returns of the wait. *)
Fixpoint loop (wakes : list Wake) (l : Locals) : list Effect * Outcome :=
  match wakes with
  | [] => ([], Waiting)
  | w :: rest =>
      let l0 := {| run := run l;
                   input_state := deliver P (events w) (input_state l);
                   input_prev_state := input_prev_state l;
                   time_start := time_start l |} in
      if flag_set (flags w) (FuriFlagError P) then ([], CheckFailed)
      else
        let '(calls, after) :=
          if flag_set (flags w) GameThreadFlagUpdate
          then frame w l0 else ([], Some l0) in
        match after with
        | None => (calls, NullCallback)
        | Some l1 =>
            if flag_set (flags w) GameThreadFlagStop
            then (calls, Returned)
            else let '(more, out) := loop rest l1 in (calls ++ more, out)
        end
  end.

Definition teardown : list Effect :=
  [ClockTimerStop; GuiDirectDrawRelease (gui e);
   FuriPubsubUnsubscribe (input_pubsub e)].

Definition setup : list Effect :=
  [GuiDirectDrawAcquire (gui e); FuriPubsubSubscribe (input_pubsub e);
   ClockTimerStart (fps (settings e))].

(** [game_engine_run]: [cyccnt0] is the cycle counter read before the
    loop. *)
Definition game_engine_run (cyccnt0 : Z) (wakes : list Wake)
  : list Effect * Outcome :=
  let '(calls, out) := loop wakes (initial_locals e cyccnt0) in
  (setup ++ calls ++ match out with Returned => teardown | _ => [] end, out).

End Loop.

(* ================================================================== *)
(** ** The accessors of the running engine *)

Definition running_game_engine_get_delta_time (r : RunningGameEngine) : float32 :=
  F32.div F32.one (run_fps r).

Definition running_game_engine_get_delta_frames (r : RunningGameEngine) : float32 :=
  F32.div (run_fps r) (fps (settings (engine r))).

(* ================================================================== *)
(** ** A concrete platform *)

(** Modelled from the spec: the enumerators of [game_engine.h] and of the
    firmware headers are not in the source file.  The raw keys are
    numbered from 0 in the order of the table, each logical key is one bit
    of the accumulator (section 3: one bit set per key-down), the core
    clock runs at 64 MHz and the error bit of the thread flags is the top
    bit of the word. *)
Definition flipper : Platform :=
  {| SystemCoreClock := 64000000;
     FuriFlagError := 2 ^ 31;
     InputKey_code := fun k =>
       match k with
       | InputKeyUp => 0 | InputKeyDown => 1 | InputKeyRight => 2
       | InputKeyLeft => 3 | InputKeyOk => 4 | InputKeyBack => 5
       end%nat;
     GameKey_value := fun k =>
       match k with
       | GameKeyUp => Z.shiftl 1 0 | GameKeyDown => Z.shiftl 1 1
       | GameKeyRight => Z.shiftl 1 2 | GameKeyLeft => Z.shiftl 1 3
       | GameKeyOk => Z.shiftl 1 4 | GameKeyBack => Z.shiftl 1 5
       end |}.

(** A set of logical keys as a mask. *)
Definition mask_of (P : Platform) (ks : list GameKey) : Z :=
  fold_right (fun k m => Z.lor (GameKey_value P k) m) 0 ks.


(* ================================================================== *)
(** ** Vocabulary of the statements *)

(** A property of the handle and the input of every call of the client
    callback. *)
Definition on_callback (Q : RunningGameEngine -> InputState -> Prop)
           (call : Effect) : Prop :=
  match call with
  | ClientCallback _ r input _ => Q r input
  | _ => True
  end.

(** A return of the wait that neither reports an error nor asks to stop. *)
Definition keeps_running (P : Platform) (w : Wake) : Prop :=
  flag_set (flags w) (FuriFlagError P) = false /\
  flag_set (flags w) GameThreadFlagStop = false.

(** An engine with a callback, 60 frames per second and the overlay. *)
Definition e_demo : GameEngine :=
  {| gui := 1; input_pubsub := 2; thread_id := 3;
     settings := {| fps := F32.sixty; show_fps := true;
                    callback := Some 1%positive; context := None |} |}.

(** A frame that takes 2133333 cycles at 64 MHz: about 30 frames per
    second, against the 60 that are configured. *)
Definition w_slow : Wake := {| flags := 3; events := []; cyccnt := 2133333 |}.

Definition r_slow : RunningGameEngine :=
  {| engine := e_demo; run_fps := S754_finite false 15728642 (-19) |}.

(* ================================================================== *)
(** ** Signals *)

(** The flag word of every thread. *)
Definition ThreadFlags : Type := Handle -> Z.

(** Modelled from the spec: [furi_thread_flags_set] is a primitive of the
    firmware, outside the source file.  Section 4.3 and 5: the signals
    are coalesced flags in one word per execution context, and raising a
    signal sets its bits in the word of the target. *)
Definition furi_thread_flags_set (tid : Handle) (raised : Z) (tf : ThreadFlags)
  : ThreadFlags :=
  fun t => if t =? tid then Z.lor (tf t) (U32.wrap raised) else tf t.

(** Modelled from the spec: [furi_thread_flags_wait] with
    [FuriFlagWaitAny] and no timeout, also a primitive of the firmware.
    Section 4.3 and 5: the wait blocks ([None]) as long as none of the
    awaited flags is raised; otherwise it returns the word and clears the
    awaited flags in it. *)
Definition furi_thread_flags_wait (tid : Handle) (awaited : Z) (tf : ThreadFlags)
  : option (Z * ThreadFlags) :=
  if Z.land (tf tid) awaited =? 0 then None
  else Some (tf tid,
             fun t => if t =? tid then Z.land (tf t) (U32.not awaited) else tf t).

(** [clock_timer_callback]; [context] is the engine. *)
Definition clock_timer_callback (context : GameEngine) (tf : ThreadFlags)
  : ThreadFlags :=
  furi_thread_flags_set (thread_id context) GameThreadFlagUpdate tf.

(** [running_game_engine_stop]. *)
Definition running_game_engine_stop (r : RunningGameEngine) (tf : ThreadFlags)
  : ThreadFlags :=
  furi_thread_flags_set (thread_id (engine r)) GameThreadFlagStop tf.

(* ================================================================== *)
(** ** Measures of a run *)

(** The number of calls of the client callback among the calls of a run. *)
Fixpoint callback_calls (calls : list Effect) : nat :=
  match calls with
  | [] => O
  | ClientCallback _ _ _ _ :: rest => S (callback_calls rest)
  | _ :: rest => callback_calls rest
  end.

(** The inputs passed to the client callback among the calls of a run,
    in order. *)
Fixpoint callback_inputs (calls : list Effect) : list InputState :=
  match calls with
  | [] => []
  | ClientCallback _ _ input _ :: rest => input :: callback_inputs rest
  | _ :: rest => callback_inputs rest
  end.

(** A return of the wait with the update flag. *)
Definition is_update (w : Wake) : bool := flag_set (flags w) GameThreadFlagUpdate.

(** The returns of the wait that the loop gets to see: up to the first one
    that reports an error (left out, the check fails before anything is
    done with it) or that asks to stop (kept). *)
Fixpoint observed (P : Platform) (wakes : list Wake) : list Wake :=
  match wakes with
  | [] => []
  | w :: rest =>
      if flag_set (flags w) (FuriFlagError P) then []
      else if flag_set (flags w) GameThreadFlagStop then [w]
      else w :: observed P rest
  end.

(** The number of returns of the wait with the update flag. *)
Definition updates (wakes : list Wake) : nat :=
  List.length (filter (fun w => flag_set (flags w) GameThreadFlagUpdate) wakes).

(** The calls a frame makes. *)
Definition is_frame_call (call : Effect) : bool :=
  match call with
  | CanvasReset | ClientCallback _ _ _ _ | CanvasSetColorXOR
  | CanvasPrintf _ _ _ _ | CanvasCommit => true
  | _ => false
  end.

(** The calls that draw the overlay. *)
Definition is_overlay_call (call : Effect) : bool :=
  match call with
  | CanvasSetColorXOR | CanvasPrintf _ _ _ _ => true
  | _ => false
  end.

(** The logical key that the initializers of the table [keys] give for
    a raw key. *)
Definition game_key_of (k : InputKey) : GameKey :=
  match k with
  | InputKeyUp => GameKeyUp
  | InputKeyDown => GameKeyDown
  | InputKeyRight => GameKeyRight
  | InputKeyLeft => GameKeyLeft
  | InputKeyOk => GameKeyOk
  | InputKeyBack => GameKeyBack
  end.

(** All the bits the table [keys] can set in the accumulator. *)
Definition all_keys (P : Platform) : Z :=
  fold_right (fun k m => Z.lor (U32.wrap k) m) 0 (keys P).

(** A rate that is zero, a positive number or plus infinity. *)
Definition is_nonnegative (x : float32) : bool :=
  match x with
  | S754_zero s | S754_infinity s | S754_finite s _ _ => negb s
  | S754_nan => false
  end.

(** The locals when the wait returns: the events delivered in the
    meantime have gone into the accumulator. *)
Definition on_wake (P : Platform) (w : Wake) (l : Locals) : Locals :=
  {| run := run l;
     input_state := deliver P (events w) (input_state l);
     input_prev_state := input_prev_state l;
     time_start := time_start l |}.

(** What the loop keeps true of its locals: the handle refers to the
    engine that runs, and the accumulator and the previous snapshot are
    32-bit words made of bits of the table. *)
Definition locals_ok (P : Platform) (e : GameEngine) (l : Locals) : Prop :=
  engine (run l) = e /\
  U32.in_range (input_state l) /\
  Z.land (input_state l) (U32.not (all_keys P)) = 0 /\
  U32.in_range (input_prev_state l) /\
  Z.land (input_prev_state l) (U32.not (all_keys P)) = 0.

(* ================================================================== *)
(** * Properties *)

(** ** Bits of 32-bit words *)

Lemma wrap_range (z : Z) : U32.in_range (U32.wrap z).
Proof.
  unfold U32.in_range, U32.wrap, U32.modulus.
  apply Z.mod_pos_bound. lia.
Qed.

Lemma wrap_small (z : Z) : U32.in_range z -> U32.wrap z = z.
Proof.
  unfold U32.in_range, U32.wrap. intros H. now apply Z.mod_small.
Qed.

Lemma testbit_wrap (z i : Z) :
  Z.testbit (U32.wrap z) i = (i <? 32) && Z.testbit z i.
Proof.
  unfold U32.wrap, U32.modulus.
  destruct (Z.ltb_spec i 0) as [Hneg | Hpos].
  - rewrite !Z.testbit_neg_r by assumption. now rewrite andb_false_r.
  - destruct (Z.ltb_spec i 32).
    + rewrite Z.mod_pow2_bits_low by lia. reflexivity.
    + rewrite Z.mod_pow2_bits_high by lia. reflexivity.
Qed.

Lemma testbit_not (a i : Z) :
  0 <= i -> Z.testbit (U32.not a) i = (i <? 32) && negb (Z.testbit a i).
Proof.
  intros Hi. unfold U32.not. rewrite testbit_wrap.
  now rewrite Z.lnot_spec by assumption.
Qed.

Lemma testbit_high (z i : Z) : U32.in_range z -> 32 <= i -> Z.testbit z i = false.
Proof.
  intros Hz Hi. rewrite <- (wrap_small z Hz), testbit_wrap.
  destruct (Z.ltb_spec i 32); [lia | reflexivity].
Qed.

Lemma in_range_bits (z : Z) :
  0 <= z -> (forall i, 32 <= i -> Z.testbit z i = false) -> U32.in_range z.
Proof.
  intros Hz Hbits. unfold U32.in_range, U32.modulus. split; [assumption|].
  destruct (Z.eq_dec z 0) as [-> | Hnz]; [reflexivity|].
  apply Z.log2_lt_pow2; [lia|].
  destruct (Z.lt_ge_cases (Z.log2 z) 32) as [Hlt | Hge]; [assumption|].
  specialize (Hbits (Z.log2 z) Hge).
  rewrite Z.bit_log2 in Hbits by lia. discriminate.
Qed.

Lemma pow2_range (b : Z) : 0 <= b < 32 -> U32.in_range (2 ^ b).
Proof.
  intros Hb. unfold U32.in_range, U32.modulus. split.
  - apply Z.pow_nonneg. lia.
  - apply Z.pow_lt_mono_r; lia.
Qed.

(** Solves a bit-by-bit equation between masks built from [Z.land],
    [Z.lor] and [U32.not]. *)
Ltac mask_bits i :=
  apply Z.bits_inj'; intros i ?;
  repeat first
    [ rewrite Z.land_spec | rewrite Z.lor_spec
    | rewrite testbit_not by assumption | rewrite Z.bits_0 ].

Lemma pressed_released_disjoint (cur prev : Z) :
  Z.land (pressed (read_input cur prev)) (released (read_input cur prev)) = 0.
Proof.
  simpl. mask_bits i.
  destruct (Z.testbit cur i), (Z.testbit prev i), (i <? 32); reflexivity.
Qed.

Lemma pressed_new_keys (old new : Z) :
  U32.in_range new -> Z.land old new = 0 ->
  Z.land (Z.lor old new) (U32.not old) = new.
Proof.
  intros Hnew Hdisj. mask_bits i.
  assert (Hb : Z.testbit old i && Z.testbit new i = false)
    by (rewrite <- Z.land_spec, Hdisj; apply Z.bits_0).
  destruct (Z.ltb_spec i 32) as [Hlt | Hge].
  - destruct (Z.testbit old i), (Z.testbit new i); simpl in *; congruence.
  - rewrite (testbit_high new i Hnew Hge). now rewrite andb_false_r.
Qed.

Lemma released_none (cur prev : Z) :
  Z.land cur prev = prev -> Z.land (U32.not cur) prev = 0.
Proof.
  intros Hsub. mask_bits i.
  assert (Hb : Z.testbit cur i && Z.testbit prev i = Z.testbit prev i)
    by (rewrite <- Z.land_spec, Hsub; reflexivity).
  destruct (Z.testbit cur i), (Z.testbit prev i), (i <? 32); simpl in *; congruence.
Qed.

Lemma not_zero_land (m : Z) : U32.in_range m -> Z.land (U32.not 0) m = m.
Proof.
  intros Hm. mask_bits i.
  destruct (Z.ltb_spec i 32) as [Hlt | Hge]; simpl.
  - reflexivity.
  - symmetry. now apply testbit_high.
Qed.

(** ** The frame *)

(** With a callback set, a frame resets the canvas, calls the callback
    with the measured rate and the input derived from the accumulator,
    draws the overlay when asked to, and commits. *)
Lemma frame_callback (P : Platform) (e : GameEngine) (w : Wake) (l : Locals)
      (cb : Callback) :
  callback (settings e) = Some cb ->
  let time_end := U32.wrap (cyccnt w) in
  let r := {| engine := engine (run l);
              run_fps := actual_fps (SystemCoreClock P)
                           (time_delta_of time_end (time_start l)) |} in
  let overlay :=
    if show_fps (settings e)
    then [CanvasSetColorXOR; CanvasPrintf 0 7 "%u" (F32.roundf_to_u32 (run_fps r))]
    else [] in
  frame P e w l =
    ([CanvasReset;
      ClientCallback cb r (read_input (input_state l) (input_prev_state l))
                     (context (settings e))] ++ overlay ++ [CanvasCommit],
     Some {| run := r;
             input_state := input_state l;
             input_prev_state := input_state l;
             time_start := time_end |}).
Proof.
  intros Hcb. unfold frame. rewrite Hcb. reflexivity.
Qed.

Lemma frame_on_callback (P : Platform) (e : GameEngine)
      (Q : RunningGameEngine -> InputState -> Prop) (w : Wake) (l : Locals) :
  Q {| engine := engine (run l);
       run_fps := actual_fps (SystemCoreClock P)
                    (time_delta_of (U32.wrap (cyccnt w)) (time_start l)) |}
    (read_input (input_state l) (input_prev_state l)) ->
  Forall (on_callback Q) (fst (frame P e w l)).
Proof.
  intros HQ. unfold frame.
  destruct (callback (settings e)) as [cb|]; simpl.
  - constructor; [exact I|]. constructor; [exact HQ|].
    destruct (show_fps (settings e)); simpl; repeat constructor.
  - repeat constructor.
Qed.

Lemma loop_on_callback (P : Platform) (e : GameEngine)
      (Q : RunningGameEngine -> InputState -> Prop) :
  (forall w l, Forall (on_callback Q) (fst (frame P e w l))) ->
  forall wakes l, Forall (on_callback Q) (fst (loop P e wakes l)).
Proof.
  intros Hframe. induction wakes as [|w rest IH]; intros l; simpl.
  - constructor.
  - destruct (flag_set (flags w) (FuriFlagError P)); [constructor|].
    match goal with
    | |- context [frame P e w ?l0] => specialize (Hframe w l0); set (lw := l0) in *
    end.
    destruct (flag_set (flags w) GameThreadFlagUpdate).
    + destruct (frame P e w lw) as [calls [l1|]]; simpl in *; [|assumption].
      destruct (flag_set (flags w) GameThreadFlagStop); [assumption|].
      specialize (IH l1). destruct (loop P e rest l1) as [more out]; simpl in *.
      apply Forall_app; split; assumption.
    + destruct (flag_set (flags w) GameThreadFlagStop); [constructor|].
      specialize (IH lw). destruct (loop P e rest lw) as [more out]; simpl in *.
      assumption.
Qed.

Lemma run_on_callback (P : Platform) (e : GameEngine)
      (Q : RunningGameEngine -> InputState -> Prop) :
  (forall w l, Forall (on_callback Q) (fst (frame P e w l))) ->
  forall cyccnt0 wakes,
    Forall (on_callback Q) (fst (game_engine_run P e cyccnt0 wakes)).
Proof.
  intros Hframe cyccnt0 wakes. unfold game_engine_run.
  pose proof (loop_on_callback P e Q Hframe wakes (initial_locals e cyccnt0)) as H.
  destruct (loop P e wakes (initial_locals e cyccnt0)) as [calls out]; simpl in *.
  repeat (constructor; [exact I|]).
  apply Forall_app; split; [assumption|].
  destruct out; repeat constructor.
Qed.

(** ** Edge detection *)

(** One frame, from any locals: the callback receives [held = current],
    [pressed = current & ~previous], [released = ~current & previous],
    where [current] is the accumulator and [previous] the snapshot kept
    from the frame before (0 before the first frame); the frame then keeps
    [current] as the next [previous].  With {Up} held before and
    {Up, Down} now, Down alone is pressed and nothing is released; with
    {Ok} held before and nothing now, Ok alone is released. *)
Theorem frame_derives_input_state
        (P : Platform) (e : GameEngine) (cb : Callback) (w : Wake) (l : Locals)
        (Hcb : callback (settings e) = Some cb)
        (Hup : U32.in_range (GameKey_value P GameKeyUp))
        (Hdown : U32.in_range (GameKey_value P GameKeyDown))
        (Hok : U32.in_range (GameKey_value P GameKeyOk))
        (Hdistinct : Z.land (GameKey_value P GameKeyUp)
                            (GameKey_value P GameKeyDown) = 0) :
  (forall cyccnt0, input_prev_state (initial_locals e cyccnt0) = 0) /\
  (exists r overlay l',
      frame P e w l =
        (CanvasReset
           :: ClientCallback cb r
                {| held := input_state l;
                   pressed := Z.land (input_state l) (U32.not (input_prev_state l));
                   released := Z.land (U32.not (input_state l)) (input_prev_state l) |}
                (context (settings e))
           :: overlay, Some l') /\
      input_prev_state l' = input_state l) /\
  read_input (mask_of P [GameKeyUp; GameKeyDown]) (mask_of P [GameKeyUp]) =
    {| held := mask_of P [GameKeyUp; GameKeyDown];
       pressed := mask_of P [GameKeyDown];
       released := mask_of P [] |} /\
  read_input (mask_of P []) (mask_of P [GameKeyOk]) =
    {| held := mask_of P [];
       pressed := mask_of P [];
       released := mask_of P [GameKeyOk] |}.
Proof.
  split; [reflexivity|]. split; [|split].
  - rewrite (frame_callback P e w l cb Hcb). simpl. eauto.
  - unfold read_input. cbn [mask_of fold_right]. rewrite !Z.lor_0_r.
    f_equal.
    + now apply pressed_new_keys.
    + apply released_none. mask_bits i.
      destruct (Z.testbit (GameKey_value P GameKeyUp) i),
               (Z.testbit (GameKey_value P GameKeyDown) i); reflexivity.
  - unfold read_input. cbn [mask_of fold_right]. rewrite !Z.lor_0_r.
    f_equal. now apply not_zero_land.
Qed.

Lemma frame_derives_input_state_witness :
  let w := {| flags := 1; events := []; cyccnt := 1000 |} in
  let e := {| gui := 1; input_pubsub := 2; thread_id := 3;
              settings := {| fps := F32.sixty; show_fps := false;
                             callback := Some 1%positive; context := None |} |} in
  read_input (mask_of flipper [GameKeyUp; GameKeyDown]) (mask_of flipper [GameKeyUp]) =
    {| held := 3; pressed := 2; released := 0 |}.
Proof.
  intros w e.
  pose proof (frame_derives_input_state flipper e 1%positive w (initial_locals e 0)
                eq_refl) as H.
  assert (Hup : U32.in_range (GameKey_value flipper GameKeyUp))
    by (vm_compute; split; [discriminate | reflexivity]).
  assert (Hdown : U32.in_range (GameKey_value flipper GameKeyDown))
    by (vm_compute; split; [discriminate | reflexivity]).
  assert (Hok : U32.in_range (GameKey_value flipper GameKeyOk))
    by (vm_compute; split; [discriminate | reflexivity]).
  destruct (H Hup Hdown Hok eq_refl) as (_ & _ & Hex & _).
  exact Hex.
Defined.

(** C4: the pressed and the released masks of a frame never share a key,
    whatever the previous and the current value of the accumulator: for
    the masks the frame derives, and so for the input of every call of the
    client callback in every run. *)
Theorem pressed_and_released_never_overlap :
  (forall input_current_state input_prev_state : Z,
      let input := read_input input_current_state input_prev_state in
      Z.land (pressed input) (released input) = 0) /\
  (forall (P : Platform) (e : GameEngine) (cyccnt0 : Z) (wakes : list Wake),
      Forall (on_callback (fun _ input => Z.land (pressed input) (released input) = 0))
             (fst (game_engine_run P e cyccnt0 wakes))).
Proof.
  split.
  - intros cur prev. apply pressed_released_disjoint.
  - intros P e cyccnt0 wakes. apply run_on_callback.
    intros w l. apply frame_on_callback. apply pressed_released_disjoint.
Qed.

(** ** The input latch *)

(** On the concrete platform the table has six entries, one bit each. *)
Lemma flipper_keys : keys flipper = [1; 2; 4; 8; 16; 32].
Proof. reflexivity. Qed.

(** C9: an event whose key number is outside the table ([key >=
    keys_count]) leaves the accumulator as it was; the callback has no
    other result, so nothing is signalled. *)
Theorem unrecognized_key_ignored
        (P : Platform) (event : InputEvent) (input_state : Z)
        (Hout : keys_count P <= U32.wrap (key event)) :
  input_events_callback P event input_state = input_state.
Proof.
  unfold input_events_callback.
  destruct (Z.ltb_spec (U32.wrap (key event)) (keys_count P)) as [Hlt | _].
  - lia.
  - reflexivity.
Qed.

Lemma unrecognized_key_ignored_witness :
  input_events_callback flipper {| key := 6; type := InputTypePress |} 5 = 5.
Proof.
  apply (unrecognized_key_ignored flipper {| key := 6; type := InputTypePress |} 5).
  vm_compute. discriminate.
Defined.

(** C10: an event with a key of the table, mapped to the single bit [b],
    changes no other bit of the accumulator: a press sets bit [b], a
    release clears it, and any other transition leaves the accumulator
    unchanged. *)
Theorem recognized_key_changes_one_bit
        (P : Platform) (event : InputEvent) (input_state b : Z)
        (Hacc : U32.in_range input_state)
        (Hin : U32.wrap (key event) < keys_count P)
        (Hb : 0 <= b < 32)
        (Hkey : keys_at P (U32.wrap (key event)) = 2 ^ b) :
  let after := input_events_callback P event input_state in
  (forall i, i <> b -> Z.testbit after i = Z.testbit input_state i) /\
  U32.in_range after /\
  match type event with
  | InputTypePress => Z.testbit after b = true
  | InputTypeRelease => Z.testbit after b = false
  | InputTypeOther _ => after = input_state
  end.
Proof.
  unfold input_events_callback.
  destruct (Z.ltb_spec (U32.wrap (key event)) (keys_count P)) as [_ | Hge]; [|lia].
  rewrite Hkey.
  pose proof (pow2_range b Hb) as Hpow.
  assert (Hbit : forall i, Z.testbit (2 ^ b) i = (i =? b)).
  { intros i. destruct (Z.eqb_spec i b) as [-> | Hne].
    - apply Z.pow2_bits_true. lia.
    - destruct (Z.lt_ge_cases i 0); [now apply Z.testbit_neg_r|].
      apply Z.pow2_bits_false. lia. }
  destruct (type event); cbv zeta.
  - unfold U32.or_assign. rewrite (wrap_small _ Hpow). split; [|split].
    + intros i Hi. rewrite Z.lor_spec, Hbit.
      destruct (Z.eqb_spec i b); [contradiction | apply orb_false_r].
    + apply in_range_bits.
      * apply Z.lor_nonneg. unfold U32.in_range in *. lia.
      * intros i Hi. rewrite Z.lor_spec, Hbit, (testbit_high _ _ Hacc Hi).
        destruct (Z.eqb_spec i b); [lia | reflexivity].
    + rewrite Z.lor_spec, Hbit, Z.eqb_refl. apply orb_true_r.
  - unfold U32.and_not_assign. split; [|split].
    + intros i Hi.
      destruct (Z.lt_ge_cases i 0); [now rewrite !Z.testbit_neg_r|].
      rewrite Z.land_spec, testbit_not, Hbit by assumption.
      destruct (Z.eqb_spec i b); [contradiction|].
      destruct (Z.ltb_spec i 32); simpl.
      * apply andb_true_r.
      * rewrite (testbit_high _ _ Hacc) by lia. reflexivity.
    + apply in_range_bits.
      * apply Z.land_nonneg. left. unfold U32.in_range in *. lia.
      * intros i Hi. rewrite Z.land_spec, (testbit_high _ _ Hacc Hi). reflexivity.
    + rewrite Z.land_spec, testbit_not, Hbit, Z.eqb_refl by lia.
      destruct (Z.ltb_spec b 32); [|lia]. apply andb_false_r.
  - split; [reflexivity|]. split; [assumption | reflexivity].
Qed.

Lemma recognized_key_changes_one_bit_witness :
  let after := input_events_callback flipper {| key := 1; type := InputTypeRelease |} 7 in
  (forall i, i <> 1 -> Z.testbit after i = Z.testbit 7 i) /\
  U32.in_range after /\ Z.testbit after 1 = false.
Proof.
  apply (recognized_key_changes_one_bit
           flipper {| key := 1; type := InputTypeRelease |} 7 1).
  - vm_compute. split; [discriminate | reflexivity].
  - vm_compute. reflexivity.
  - lia.
  - reflexivity.
Defined.

(** On the concrete platform every key of the table is mapped to the bit
    of its own number. *)
Lemma flipper_keys_one_bit (k : Z) :
  0 <= k < keys_count flipper -> keys_at flipper k = 2 ^ k /\ 0 <= k < 32.
Proof.
  intros Hk. change (keys_count flipper) with 6 in Hk.
  assert (Hcases : k = 0 \/ k = 1 \/ k = 2 \/ k = 3 \/ k = 4 \/ k = 5) by lia.
  destruct Hcases as [-> | [-> | [-> | [-> | [-> | ->]]]]];
    (split; [reflexivity | lia]).
Qed.

(** ** The cycle counter *)

(** One frame, from any locals: the elapsed count is the 32-bit difference
    [(now - start) mod 2^32] of the two readings, and [start] becomes
    [now]; when the counter, counted without wrap-around, went from [T0]
    to [T1] with fewer than [2^32] cycles in between, that difference is
    [T1 - T0], also when the counter wrapped between the readings. *)
Theorem elapsed_cycles_modular
        (P : Platform) (e : GameEngine) (cb : Callback) (w : Wake) (l : Locals)
        (T0 T1 : Z)
        (Hcb : callback (settings e) = Some cb)
        (Hstart : time_start l = U32.wrap T0)
        (Hnow : cyccnt w = U32.wrap T1)
        (Helapsed : 0 <= T1 - T0 < U32.modulus) :
  time_delta_of (U32.wrap (cyccnt w)) (time_start l)
    = (cyccnt w - time_start l) mod 2 ^ 32 /\
  time_delta_of (U32.wrap (cyccnt w)) (time_start l) = T1 - T0 /\
  exists calls l',
    frame P e w l = (calls, Some l') /\
    time_start l' = cyccnt w /\
    run_fps (run l') = actual_fps (SystemCoreClock P) (T1 - T0).
Proof.
  assert (Hw : U32.wrap (cyccnt w) = cyccnt w).
  { rewrite Hnow. apply wrap_small, wrap_range. }
  assert (Hdelta : time_delta_of (U32.wrap (cyccnt w)) (time_start l) = T1 - T0).
  { rewrite Hw, Hstart, Hnow.
    unfold time_delta_of, U32.sub, U32.wrap.
    rewrite <- Zminus_mod. now apply Z.mod_small. }
  split; [|split].
  - rewrite Hw. reflexivity.
  - exact Hdelta.
  - rewrite (frame_callback P e w l cb Hcb). cbv zeta. rewrite Hdelta, Hw.
    eexists _, _. split; [reflexivity|]. split; reflexivity.
Qed.

Lemma elapsed_cycles_modular_witness :
  time_delta_of (U32.wrap 704) 4294967000 = 1000.
Proof.
  pose proof (elapsed_cycles_modular
                flipper e_demo 1%positive
                {| flags := 1; events := []; cyccnt := 704 |}
                {| run := {| engine := e_demo; run_fps := F32.zero |};
                   input_state := 0; input_prev_state := 0;
                   time_start := 4294967000 |}
                4294967000 4294968000 eq_refl eq_refl eq_refl) as H.
  apply H. vm_compute. split; [discriminate | reflexivity].
Defined.

(** ** Allocation *)

(** C8: the allocation fails its check exactly when the settings have no
    callback; with a callback it returns an engine that holds the settings
    as they were given. *)
Theorem game_engine_alloc_checks_callback (os : Furi) (s : GameEngineSettings) :
  (game_engine_alloc os s = FuriCheckFailed <-> callback s = None) /\
  (forall cb, callback s = Some cb ->
     exists e, game_engine_alloc os s = Ok e /\ settings e = s).
Proof.
  unfold game_engine_alloc, furi_check. split.
  - destruct (callback s); split; intros H; (discriminate || reflexivity).
  - intros cb Hcb. rewrite Hcb. eexists. split; reflexivity.
Qed.

Lemma game_engine_alloc_checks_callback_witness :
  game_engine_alloc
    {| RECORD_GUI := 1; RECORD_INPUT_EVENTS := 2; furi_thread_get_current_id := 3 |}
    game_engine_settings_init = FuriCheckFailed /\
  exists e,
    game_engine_alloc
      {| RECORD_GUI := 1; RECORD_INPUT_EVENTS := 2; furi_thread_get_current_id := 3 |}
      (settings e_demo) = Ok e /\ settings e = settings e_demo.
Proof.
  split.
  - apply (game_engine_alloc_checks_callback
             {| RECORD_GUI := 1; RECORD_INPUT_EVENTS := 2;
                furi_thread_get_current_id := 3 |} game_engine_settings_init).
    reflexivity.
  - apply (game_engine_alloc_checks_callback
             {| RECORD_GUI := 1; RECORD_INPUT_EVENTS := 2;
                furi_thread_get_current_id := 3 |} (settings e_demo)) with (cb := 1%positive).
    reflexivity.
Defined.

(** ** The loop and its exit *)

(** As long as the wait keeps the loop running, the loop goes on to the
    wait that follows, with the calls made so far in front. *)
Lemma loop_keeps_running (P : Platform) (e : GameEngine) (cb : Callback) :
  callback (settings e) = Some cb ->
  forall pre l,
    Forall (keeps_running P) pre ->
    exists calls l',
      loop P e pre l = (calls, Waiting) /\
      forall rest,
        loop P e (pre ++ rest) l =
          (calls ++ fst (loop P e rest l'), snd (loop P e rest l')).
Proof.
  intros Hcb. induction pre as [|w pre IH]; intros l Hpre.
  - exists [], l. split; [reflexivity|].
    intros rest. simpl. now destruct (loop P e rest l).
  - inversion Hpre as [|w' pre' [Herr Hstop] Hrest]; subst.
    cbn [loop app]. rewrite Herr, Hstop.
    match goal with
    | |- context [frame P e w ?l0] => set (lw := l0)
    end.
    destruct (flag_set (flags w) GameThreadFlagUpdate).
    + rewrite (frame_callback P e w lw cb Hcb). cbv zeta.
      match goal with
      | |- context [loop P e pre ?l1] => set (lnext := l1)
      end.
      destruct (IH lnext Hrest) as (calls & l' & Hloop & Happ).
      rewrite Hloop. eexists (_ ++ calls), l'. split; [reflexivity|].
      intros rest. rewrite Happ. cbv iota beta. now rewrite app_assoc.
    + destruct (IH lw Hrest) as (calls & l' & Hloop & Happ).
      rewrite Hloop. exists calls, l'. split; [reflexivity|].
      intros rest. rewrite Happ. reflexivity.
Qed.



(** A stop without an update: no frame, only the release of what the
    run acquired. *)
Lemma stop_without_update
      (P : Platform) (e : GameEngine) (cb : Callback) (cyccnt0 : Z)
      (pre : list Wake) (w : Wake) (post : list Wake) :
  callback (settings e) = Some cb ->
  Forall (keeps_running P) pre ->
  flag_set (flags w) (FuriFlagError P) = false ->
  flag_set (flags w) GameThreadFlagUpdate = false ->
  flag_set (flags w) GameThreadFlagStop = true ->
  exists before,
    game_engine_run P e cyccnt0 pre = (setup e ++ before, Waiting) /\
    game_engine_run P e cyccnt0 (pre ++ w :: post) =
      (setup e ++ before ++ teardown e, Returned).
Proof.
  intros Hcb Hpre Herr Hupdate Hstop.
  destruct (loop_keeps_running P e cb Hcb pre (initial_locals e cyccnt0) Hpre)
    as (before & l' & Hloop & Happ).
  unfold game_engine_run. rewrite Hloop, Happ.
  cbn [loop]. rewrite Herr, Hupdate, Hstop.
  exists before. split.
  - now rewrite app_nil_r.
  - cbn [fst snd]. now rewrite app_nil_r.
Qed.

(** ** Single-precision division *)

Lemma div_eucl_exact (q m : Z) : 0 < m -> Z.div_eucl (m * q) m = (q, 0).
Proof.
  intros Hm.
  pose proof (Z.div_mul q m ltac:(lia)) as Hq.
  pose proof (Z.mod_mul q m ltac:(lia)) as Hr.
  rewrite (Z.mul_comm q m) in Hq, Hr.
  unfold Z.div in Hq. unfold Z.modulo in Hr.
  destruct (Z.div_eucl (m * q) m) as [q' r]. now subst.
Qed.

Lemma new_location_exact (m : Z) : new_location m 0 = loc_Exact.
Proof.
  unfold new_location. destruct (Z.even m); reflexivity.
Qed.

(** The quotient of a mantissa shifted by 24 bits and the mantissa
    itself, at the exponent [e]. *)
Lemma round_pow24 (s : bool) (e : Z) :
  e = -24 \/ e = -23 ->
  binary_round_aux F32.prec F32.emax s (2 ^ 24) e loc_Exact =
    S754_finite s 8388608 (e + 1).
Proof.
  intros [-> | ->]; reflexivity.
Qed.

Lemma div_same (s : bool) (m : positive) (e : Z) :
  F32.div (S754_finite s m e) (S754_finite s m e) = F32.one.
Proof.
  unfold F32.div, SFdiv, SFdiv_core_binary.
  replace (Zdigits2 (Z.pos m) + e - (Zdigits2 (Z.pos m) + e)) with 0 by lia.
  replace (e - e) with 0 by lia.
  change (Z.min (fexp F32.prec F32.emax 0) 0) with (-24).
  change (0 - -24) with 24.
  cbv iota. rewrite Z.shiftl_mul_pow2 by lia.
  rewrite div_eucl_exact by lia.
  rewrite new_location_exact, round_pow24 by auto.
  rewrite xorb_nilpotent. reflexivity.
Qed.

Lemma div_double_exponent (s : bool) (m : positive) (e : Z) :
  F32.div (S754_finite s m (e + 1)) (S754_finite s m e) = F32.two.
Proof.
  unfold F32.div, SFdiv, SFdiv_core_binary.
  replace (Zdigits2 (Z.pos m) + (e + 1) - (Zdigits2 (Z.pos m) + e)) with 1 by lia.
  replace (e + 1 - e) with 1 by lia.
  change (Z.min (fexp F32.prec F32.emax 1) 1) with (-23).
  change (1 - -23) with 24.
  cbv iota. rewrite Z.shiftl_mul_pow2 by lia.
  rewrite div_eucl_exact by lia.
  rewrite new_location_exact, round_pow24 by auto.
  rewrite xorb_nilpotent. reflexivity.
Qed.

Lemma div_double_mantissa (s : bool) (m : positive) (e : Z) :
  F32.div (S754_finite s m~0 e) (S754_finite s m e) = F32.two.
Proof.
  unfold F32.div, SFdiv, SFdiv_core_binary.
  replace (Zdigits2 (Z.pos m~0) + e - (Zdigits2 (Z.pos m) + e)) with 1
    by (cbn [Zdigits2 digits2_pos]; lia).
  replace (e - e) with 0 by lia.
  change (Z.min (fexp F32.prec F32.emax 1) 0) with (-23).
  change (0 - -23) with 23.
  cbv iota. rewrite Z.shiftl_mul_pow2 by lia.
  replace (Z.pos m~0 * 2 ^ 23) with (Z.pos m * 2 ^ 24) by lia.
  rewrite div_eucl_exact by lia.
  rewrite new_location_exact, round_pow24 by auto.
  rewrite xorb_nilpotent. reflexivity.
Qed.

(** ** Canonical representations *)

Lemma digits2_pos_bounds (m : positive) :
  2 ^ (Z.pos (digits2_pos m) - 1) <= Z.pos m < 2 ^ Z.pos (digits2_pos m).
Proof.
  induction m as [p IH | p IH |]; cbn [digits2_pos].
  - rewrite Pos2Z.inj_succ.
    replace (Z.succ (Z.pos (digits2_pos p)) - 1)
      with (Z.succ (Z.pos (digits2_pos p) - 1)) by lia.
    rewrite !Z.pow_succ_r by lia. lia.
  - rewrite Pos2Z.inj_succ.
    replace (Z.succ (Z.pos (digits2_pos p)) - 1)
      with (Z.succ (Z.pos (digits2_pos p) - 1)) by lia.
    rewrite !Z.pow_succ_r by lia. lia.
  - simpl. lia.
Qed.

(** A valid finite float has at most 24 digits, an exponent of at least
    -149, and exactly 24 digits above that exponent. *)
Lemma valid_finite (s : bool) (m : positive) (e : Z) :
  F32.valid (S754_finite s m e) = true ->
  Z.pos (digits2_pos m) <= 24 /\ -149 <= e /\
  (-149 < e -> Z.pos (digits2_pos m) = 24).
Proof.
  unfold F32.valid, valid_binary, bounded, canonical_mantissa, fexp.
  change (emin F32.prec F32.emax) with (-149). change F32.prec with 24.
  intros H. apply andb_prop in H as [Hcanon _].
  apply Z.eqb_eq in Hcanon. lia.
Qed.

Lemma twice_cases (s s' : bool) (m m' : positive) (e e' : Z) :
  F32.valid (S754_finite s m e) = true ->
  F32.valid (S754_finite s' m' e') = true ->
  F32.is_twice (S754_finite s m e) (S754_finite s' m' e') ->
  s = s' /\ ((e = e' + 1 /\ m = m') \/ (e = e' /\ m = (m'~0)%positive)).
Proof.
  intros Hx Hy [Hs Hval]. split; [assumption|].
  apply valid_finite in Hx as (Hdx & Hex & Hnx).
  apply valid_finite in Hy as (Hdy & Hey & Hny).
  change (emin F32.prec F32.emax) with (-149) in Hval.
  pose proof (digits2_pos_bounds m) as Hbx.
  pose proof (digits2_pos_bounds m') as Hby.
  assert (Hx24 : Z.pos m < 2 ^ 24).
  { apply Z.lt_le_trans with (2 ^ Z.pos (digits2_pos m)); [lia|].
    apply Z.pow_le_mono_r; lia. }
  assert (Hy24 : Z.pos m' < 2 ^ 24).
  { apply Z.lt_le_trans with (2 ^ Z.pos (digits2_pos m')); [lia|].
    apply Z.pow_le_mono_r; lia. }
  destruct (Z.lt_trichotomy e (e' + 1)) as [Hlt | [Heq | Hgt]].
  - destruct (Z.eq_dec e e') as [He | Hne].
    + right. split; [assumption|]. subst e'.
      assert (0 < 2 ^ (e - -149)) by (apply Z.pow_pos_nonneg; lia).
      assert (Z.pos m = 2 * Z.pos m') by nia.
      lia.
    + exfalso.
      assert (Hd : Z.pos (digits2_pos m') = 24) by (apply Hny; lia).
      rewrite Hd in Hby. change (2 ^ (24 - 1)) with 8388608 in Hby.
      replace (e' - -149) with ((e - -149) + (e' - e)) in Hval by lia.
      rewrite Z.pow_add_r in Hval by lia.
      assert (0 < 2 ^ (e - -149)) by (apply Z.pow_pos_nonneg; lia).
      assert (2 ^ 1 <= 2 ^ (e' - e)) by (apply Z.pow_le_mono_r; lia).
      change (2 ^ 1) with 2 in *. change (2 ^ 24) with 16777216 in *.
      assert (Z.pos m = 2 * (Z.pos m' * 2 ^ (e' - e))) by nia.
      nia.
  - left. split; [assumption|]. subst e.
    replace (e' + 1 - -149) with (Z.succ (e' - -149)) in Hval by lia.
    rewrite Z.pow_succ_r in Hval by lia.
    assert (0 < 2 ^ (e' - -149)) by (apply Z.pow_pos_nonneg; lia).
    assert (Z.pos m = Z.pos m') by nia.
    congruence.
  - exfalso.
    assert (Hd : Z.pos (digits2_pos m) = 24) by (apply Hnx; lia).
    rewrite Hd in Hbx. change (2 ^ (24 - 1)) with 8388608 in Hbx.
    replace (e - -149) with (Z.succ (e' - -149) + (e - e' - 1)) in Hval by lia.
    rewrite Z.pow_add_r, Z.pow_succ_r in Hval by lia.
    assert (0 < 2 ^ (e' - -149)) by (apply Z.pow_pos_nonneg; lia).
    assert (2 ^ 1 <= 2 ^ (e - e' - 1)) by (apply Z.pow_le_mono_r; lia).
    change (2 ^ 1) with 2 in *. change (2 ^ 24) with 16777216 in *.
    assert (Z.pos m * 2 ^ (e - e' - 1) = Z.pos m') by nia.
    nia.
Qed.

Lemma div_twice (x y : float32) :
  F32.valid x = true -> F32.valid y = true -> F32.is_twice x y ->
  F32.div x y = F32.two.
Proof.
  intros Hx Hy Htwice.
  destruct x as [| | |s m e]; try contradiction.
  destruct y as [| | |s' m' e']; try contradiction.
  destruct (twice_cases _ _ _ _ _ _ Hx Hy Htwice) as [<- [[-> ->] | [-> ->]]].
  - apply div_double_exponent.
  - apply div_double_mantissa.
Qed.

Lemma div_by_zero_not_finite (x : float32) (s : bool) :
  F32.is_finite (F32.div x (S754_zero s)) = false.
Proof.
  destruct x; reflexivity.
Qed.

Lemma div_finite_by_zero (s : bool) (m : positive) (e : Z) :
  F32.div (S754_finite s m e) (S754_zero false) = S754_infinity s.
Proof.
  destruct s; reflexivity.
Qed.

(** ** Conversion of integers to single precision *)

Lemma iter_pos_nat {A : Type} (f : A -> A) (n : positive) (x : A) :
  iter_pos f n x = Nat.iter (Pos.to_nat n) f x.
Proof.
  revert x. induction n as [n IH | n IH |]; intros x; cbn [iter_pos].
  - rewrite Pos2Nat.inj_xI, !IH.
    rewrite <- (Nat.iter_succ_r (Pos.to_nat n) _ f x), <- Nat.iter_add.
    f_equal. lia.
  - rewrite Pos2Nat.inj_xO, !IH, <- Nat.iter_add.
    f_equal. lia.
  - reflexivity.
Qed.

Lemma Zdigits2_pos (m : Z) : 0 < m -> 0 < Zdigits2 m.
Proof.
  destruct m; simpl; lia.
Qed.

Lemma Zdigits2_le (m k : Z) : 0 < m -> 0 <= k -> m < 2 ^ k -> Zdigits2 m <= k.
Proof.
  intros Hm Hk Hlt. destruct m as [|p|p]; try lia. cbn [Zdigits2].
  pose proof (digits2_pos_bounds p) as [Hlow _].
  destruct (Z.le_gt_cases (Z.pos (digits2_pos p)) k) as [Hle | Hgt]; [assumption|].
  assert (2 ^ k <= 2 ^ (Z.pos (digits2_pos p) - 1)) by (apply Z.pow_le_mono_r; lia).
  lia.
Qed.

Lemma shr_1_digits (mrs : shr_record) :
  1 < Zdigits2 (shr_m mrs) -> 0 < shr_m mrs ->
  0 < shr_m (shr_1 mrs) /\
  Zdigits2 (shr_m (shr_1 mrs)) = Zdigits2 (shr_m mrs) - 1.
Proof.
  destruct mrs as [m r s]. cbn [shr_m]. intros Hd Hm.
  destruct m as [|[p|p|]|p]; cbn [Zdigits2 digits2_pos shr_1 shr_m] in *; lia.
Qed.

Lemma shr_nat_digits (k : nat) (mrs : shr_record) :
  Z.of_nat k < Zdigits2 (shr_m mrs) -> 0 < shr_m mrs ->
  0 < shr_m (Nat.iter k shr_1 mrs) /\
  Zdigits2 (shr_m (Nat.iter k shr_1 mrs)) = Zdigits2 (shr_m mrs) - Z.of_nat k.
Proof.
  revert mrs. induction k as [|k IH]; intros mrs Hk Hm.
  - cbn [Nat.iter nat_rect]. split; [assumption | lia].
  - rewrite Nat.iter_succ_r.
    destruct (shr_1_digits mrs) as [Hpos Hdig]; [lia | assumption |].
    destruct (IH (shr_1 mrs)) as [Hpos' Hdig']; [lia | assumption |].
    split; [assumption | lia].
Qed.

Lemma shr_digits (mrs : shr_record) (e n : Z) :
  n < Zdigits2 (shr_m mrs) -> 0 < shr_m mrs ->
  0 < shr_m (fst (shr mrs e n)) /\
  Zdigits2 (shr_m (fst (shr mrs e n))) = Zdigits2 (shr_m mrs) - Z.max n 0 /\
  snd (shr mrs e n) = e + Z.max n 0.
Proof.
  intros Hn Hm. destruct n as [|p|p]; cbn [shr fst snd].
  - split; [assumption | split; lia].
  - rewrite iter_pos_nat.
    destruct (shr_nat_digits (Pos.to_nat p) mrs) as [Hpos Hdig];
      [rewrite positive_nat_Z; assumption | assumption |].
    rewrite positive_nat_Z in Hdig. split; [assumption | split; lia].
  - split; [assumption | split; lia].
Qed.

Lemma shr_record_of_loc_m (m : Z) (l : location) : shr_m (shr_record_of_loc m l) = m.
Proof.
  destruct l as [|[| |]]; reflexivity.
Qed.

Lemma shr_fexp_digits (m e : Z) (l : location) :
  0 < m -> -149 < Zdigits2 m + e ->
  let mrs := fst (shr_fexp F32.prec F32.emax m e l) in
  let e' := snd (shr_fexp F32.prec F32.emax m e l) in
  0 < shr_m mrs /\
  Zdigits2 (shr_m mrs) + e' = Zdigits2 m + e /\
  e' = Z.max e (Z.max (Zdigits2 m + e - 24) (-149)).
Proof.
  intros Hm Hd. unfold shr_fexp, fexp.
  change (emin F32.prec F32.emax) with (-149). change F32.prec with 24.
  set (n := Z.max (Zdigits2 m + e - 24) (-149) - e).
  destruct (shr_digits (shr_record_of_loc m l) e n) as (Hpos & Hdig & He).
  - rewrite shr_record_of_loc_m. lia.
  - now rewrite shr_record_of_loc_m.
  - rewrite shr_record_of_loc_m in Hdig. cbv zeta.
    split; [assumption | split; lia].
Qed.

Lemma round_nearest_even_bounds (m : Z) (l : location) :
  m <= round_nearest_even m l <= m + 1.
Proof.
  unfold round_nearest_even.
  destruct l as [|[| |]]; try destruct (Z.even m); lia.
Qed.

(** Rounding a positive mantissa whose leading bit is within the range of
    the format gives a finite float of the same sign. *)
Lemma binary_round_aux_finite (s : bool) (m e : Z) (l : location) :
  0 < m -> -149 < Zdigits2 m + e <= 127 -> e <= 104 ->
  exists m' e', binary_round_aux F32.prec F32.emax s m e l = S754_finite s m' e'.
Proof.
  intros Hm Hd He. unfold binary_round_aux.
  destruct (shr_fexp_digits m e l Hm) as (Hpos1 & Hdig1 & He1); [lia|].
  destruct (shr_fexp F32.prec F32.emax m e l) as [mrs1 e1]. cbn [fst snd] in *.
  pose proof (round_nearest_even_bounds (shr_m mrs1) (loc_of_shr_record mrs1)) as Hr.
  set (m2 := round_nearest_even (shr_m mrs1) (loc_of_shr_record mrs1)) in *.
  assert (Hm2 : 0 < m2) by lia.
  pose proof (Zdigits2_pos m2 Hm2) as Hd2low.
  assert (Hd2 : Zdigits2 m2 <= Zdigits2 (shr_m mrs1) + 1).
  { apply Zdigits2_le; [assumption | pose proof (Zdigits2_pos _ Hpos1); lia |].
    destruct (shr_m mrs1) as [|p|p]; try lia. cbn [Zdigits2].
    pose proof (digits2_pos_bounds p) as [_ Hup].
    rewrite Z.pow_add_r by lia. change (2 ^ 1) with 2. lia. }
  destruct (shr_fexp_digits m2 e1 loc_Exact Hm2) as (Hpos3 & Hdig3 & He3); [lia|].
  destruct (shr_fexp F32.prec F32.emax m2 e1 loc_Exact) as [mrs3 e3].
  cbn [fst snd] in *.
  destruct (shr_m mrs3) as [|m3|m3]; try lia.
  change (F32.emax - F32.prec) with 104.
  destruct (Z.leb_spec e3 104); [eauto | lia].
Qed.

Lemma digits2_pos_iter_xO (p d : positive) :
  Z.pos (digits2_pos (Pos.iter xO p d)) = Z.pos (digits2_pos p) + Z.pos d.
Proof.
  induction d as [|d IH] using Pos.peano_ind.
  - cbn [Pos.iter digits2_pos]. lia.
  - rewrite Pos.iter_succ. cbn [digits2_pos]. lia.
Qed.

(** Every non-zero [uint32_t] converts to a positive finite float. *)
Lemma of_u32_finite (n : Z) :
  0 < n < U32.modulus -> exists m e, F32.of_u32 n = S754_finite false m e.
Proof.
  intros [Hpos Hlt]. destruct n as [|p|p]; try lia.
  unfold F32.of_u32, binary_normalize, binary_round.
  pose proof (Zdigits2_le (Z.pos p) 32 Hpos ltac:(lia) Hlt) as Hd.
  pose proof (Zdigits2_pos (Z.pos p) Hpos) as Hd0.
  cbn [Zdigits2] in Hd, Hd0.
  unfold shl_align, fexp.
  change (emin F32.prec F32.emax) with (-149). change F32.prec with 24.
  destruct (Z.max (Z.pos (digits2_pos p) + 0 - 24) (-149) - 0) as [|d|d] eqn:Hshift.
  - apply binary_round_aux_finite; cbn [Zdigits2]; lia.
  - apply binary_round_aux_finite; cbn [Zdigits2]; lia.
  - apply binary_round_aux_finite; cbn [Zdigits2];
      rewrite ?digits2_pos_iter_xO; lia.
Qed.

(** ** The accessors *)

(** C6: [delta_frames] is the quotient of the rate measured for the frame
    and the configured rate; for a configured rate that is a number other
    than zero it is exactly 1.0 when the two rates are equal and exactly
    2.0 when the measured rate is twice the configured one. *)
Theorem delta_frames_is_measured_over_target
        (r : RunningGameEngine)
        (Htarget : F32.is_finite_nonzero (fps (settings (engine r))) = true) :
  running_game_engine_get_delta_frames r =
    F32.div (run_fps r) (fps (settings (engine r))) /\
  (run_fps r = fps (settings (engine r)) ->
   running_game_engine_get_delta_frames r = F32.one) /\
  (F32.valid (run_fps r) = true ->
   F32.valid (fps (settings (engine r))) = true ->
   F32.is_twice (run_fps r) (fps (settings (engine r))) ->
   running_game_engine_get_delta_frames r = F32.two).
Proof.
  unfold running_game_engine_get_delta_frames.
  split; [reflexivity|]. split.
  - intros ->. destruct (fps (settings (engine r))); try discriminate.
    apply div_same.
  - apply div_twice.
Qed.

Lemma delta_frames_is_measured_over_target_witness :
  running_game_engine_get_delta_frames
    {| engine := e_demo; run_fps := F32.sixty |} = F32.one /\
  running_game_engine_get_delta_frames
    {| engine := e_demo; run_fps := S754_finite false 15728640 (-17) |} = F32.two.
Proof.
  split.
  - apply (delta_frames_is_measured_over_target
             {| engine := e_demo; run_fps := F32.sixty |} eq_refl).
    reflexivity.
  - apply (delta_frames_is_measured_over_target
             {| engine := e_demo; run_fps := S754_finite false 15728640 (-17) |}
             eq_refl).
    + reflexivity.
    + reflexivity.
    + split; reflexivity.
Defined.

(** C1, as stated, fails: the handle of a frame that ran at half the
    configured rate is passed to the callback, and its [delta_time] is not
    one over the configured rate. *)
Lemma delta_time_is_not_nominal :
  In (ClientCallback 1%positive r_slow {| held := 0; pressed := 0; released := 0 |} None)
     (fst (game_engine_run flipper e_demo 0 [w_slow])) /\
  running_game_engine_get_delta_time r_slow = S754_finite false 8947847 (-28) /\
  F32.div F32.one (fps (settings (engine r_slow))) = S754_finite false 8947849 (-29) /\
  running_game_engine_get_delta_time r_slow <>
    F32.div F32.one (fps (settings (engine r_slow))).
Proof.
  split; [|split; [|split]].
  - vm_compute. right. right. right. right. left. reflexivity.
  - reflexivity.
  - reflexivity.
  - vm_compute. discriminate.
Qed.

(** [delta_time] is one over the rate stored in the handle,
    whatever the engine and its configured rate; for every handle passed
    to the callback that rate is the core clock frequency divided by a
    32-bit count. *)
Theorem delta_time_is_measured_frame_time :
  (forall r, running_game_engine_get_delta_time r = F32.div F32.one (run_fps r)) /\
  (forall e e' measured,
      running_game_engine_get_delta_time {| engine := e; run_fps := measured |} =
      running_game_engine_get_delta_time {| engine := e'; run_fps := measured |}) /\
  (forall (P : Platform) (e : GameEngine) (cyccnt0 : Z) (wakes : list Wake),
      Forall
        (on_callback
           (fun r _ =>
              exists time_delta,
                U32.in_range time_delta /\
                running_game_engine_get_delta_time r =
                  F32.div F32.one
                    (F32.div (F32.of_u32 (U32.wrap (SystemCoreClock P)))
                             (F32.of_u32 time_delta))))
        (fst (game_engine_run P e cyccnt0 wakes))).
Proof.
  split; [reflexivity|]. split; [reflexivity|].
  intros P e cyccnt0 wakes. apply run_on_callback.
  intros w l. apply frame_on_callback.
  exists (time_delta_of (U32.wrap (cyccnt w)) (time_start l)).
  split; [apply wrap_range | reflexivity].
Qed.




(* ================================================================== *)
(** * Further properties of the engine *)

(** ** One turn of the loop *)

(** One return of the wait, for an engine with a callback: the check, the
    frame when the update flag is set, and the exit when the stop flag is
    set. *)
Lemma loop_step (P : Platform) (e : GameEngine) (cb : Callback)
      (w : Wake) (rest : list Wake) (l : Locals) :
  callback (settings e) = Some cb ->
  exists calls l1,
    (if flag_set (flags w) GameThreadFlagUpdate
     then frame P e w (on_wake P w l) = (calls, Some l1)
     else calls = [] /\ l1 = on_wake P w l) /\
    loop P e (w :: rest) l =
      if flag_set (flags w) (FuriFlagError P) then ([], CheckFailed)
      else if flag_set (flags w) GameThreadFlagStop then (calls, Returned)
      else (calls ++ fst (loop P e rest l1), snd (loop P e rest l1)).
Proof.
  intros Hcb. cbn [loop]. fold (on_wake P w l).
  destruct (flag_set (flags w) GameThreadFlagUpdate).
  - rewrite (frame_callback P e w (on_wake P w l) cb Hcb). cbv zeta.
    eexists _, _. split; [reflexivity|].
    destruct (flag_set (flags w) (FuriFlagError P)); [reflexivity|].
    destruct (flag_set (flags w) GameThreadFlagStop); [reflexivity|].
    match goal with |- context [loop P e rest ?l1] => destruct (loop P e rest l1) end.
    reflexivity.
  - exists [], (on_wake P w l). split; [split; reflexivity|].
    destruct (flag_set (flags w) (FuriFlagError P)); [reflexivity|].
    destruct (flag_set (flags w) GameThreadFlagStop); [reflexivity|].
    destruct (loop P e rest (on_wake P w l)). reflexivity.
Qed.

(** The calls of a frame are frame calls, one of them the callback. *)
Lemma frame_calls (P : Platform) (e : GameEngine) (cb : Callback) (w : Wake)
      (l : Locals) (calls : list Effect) (l1 : Locals) :
  callback (settings e) = Some cb ->
  frame P e w l = (calls, Some l1) ->
  forallb is_frame_call calls = true /\ callback_calls calls = 1%nat.
Proof.
  intros Hcb. rewrite (frame_callback P e w l cb Hcb). cbv zeta.
  intros H. inversion H; subst; clear H.
  destruct (show_fps (settings e)); split; reflexivity.
Qed.

Lemma callback_calls_app (a b : list Effect) :
  callback_calls (a ++ b) = (callback_calls a + callback_calls b)%nat.
Proof.
  induction a as [|c a IH]; [reflexivity|].
  destruct c; cbn [callback_calls app]; rewrite IH; reflexivity.
Qed.

Lemma updates_cons (w : Wake) (ws : list Wake) :
  updates (w :: ws) =
    ((if flag_set (flags w) GameThreadFlagUpdate then 1 else 0) + updates ws)%nat.
Proof.
  unfold updates. cbn [filter].
  destruct (flag_set (flags w) GameThreadFlagUpdate); reflexivity.
Qed.

(** ** The shape of a run *)

Lemma observed_length (P : Platform) (wakes : list Wake) :
  (List.length (observed P wakes) <= List.length wakes)%nat.
Proof.
  induction wakes as [|w rest IH]; cbn [observed List.length]; [lia|].
  destruct (flag_set (flags w) (FuriFlagError P)); cbn [List.length]; [lia|].
  destruct (flag_set (flags w) GameThreadFlagStop); cbn [List.length]; lia.
Qed.

Lemma loop_shape (P : Platform) (e : GameEngine) (cb : Callback) :
  callback (settings e) = Some cb ->
  forall wakes l,
    forallb is_frame_call (fst (loop P e wakes l)) = true /\
    callback_calls (fst (loop P e wakes l)) = updates (observed P wakes) /\
    snd (loop P e wakes l) =
      if existsb (fun w => flag_set (flags w) GameThreadFlagStop) (observed P wakes)
      then Returned
      else if (List.length (observed P wakes) =? List.length wakes)%nat
           then Waiting else CheckFailed.
Proof.
  intros Hcb. induction wakes as [|w rest IH]; intros l.
  - cbn. auto.
  - destruct (loop_step P e cb w rest l Hcb) as (calls & l1 & Hframe & ->).
    cbn [observed].
    destruct (flag_set (flags w) (FuriFlagError P)); [cbn; auto|].
    assert (Hcalls : forallb is_frame_call calls = true /\
                     callback_calls calls =
                       (if flag_set (flags w) GameThreadFlagUpdate then 1 else 0)%nat).
    { destruct (flag_set (flags w) GameThreadFlagUpdate).
      - exact (frame_calls P e cb w _ calls l1 Hcb Hframe).
      - destruct Hframe as [-> _]. split; reflexivity. }
    destruct Hcalls as [Hfc Hcc].
    destruct (flag_set (flags w) GameThreadFlagStop) eqn:Hstop.
    + cbn [fst snd existsb]. rewrite Hstop, updates_cons, Hcc.
      change (updates []) with 0%nat. cbn [orb]. auto.
    + cbn [fst snd existsb List.length]. rewrite Hstop. cbn [orb].
      destruct (IH l1) as (IHf & IHc & IHo).
      rewrite forallb_app, Hfc, IHf, callback_calls_app, Hcc, IHc, updates_cons, IHo.
      auto.
Qed.

(** X1: a run of an engine with a callback is the three calls of the
    setup, then calls of frames only, then the three calls of the
    teardown exactly when the run returns.  It returns when a return of
    the wait it gets to see has the stop flag; otherwise it stays in the
    wait, or fails the check at the first return with the error flag, and
    in neither case is the timer stopped, the canvas released or the
    subscription removed. *)
Theorem run_shape
        (P : Platform) (e : GameEngine) (cb : Callback) (cyccnt0 : Z)
        (wakes : list Wake)
        (Hcb : callback (settings e) = Some cb) :
  let stopped :=
    existsb (fun w => flag_set (flags w) GameThreadFlagStop) (observed P wakes) in
  exists frames,
    forallb is_frame_call frames = true /\
    game_engine_run P e cyccnt0 wakes =
      ([GuiDirectDrawAcquire (gui e); FuriPubsubSubscribe (input_pubsub e);
        ClockTimerStart (fps (settings e))]
         ++ frames
         ++ (if stopped
             then [ClockTimerStop; GuiDirectDrawRelease (gui e);
                   FuriPubsubUnsubscribe (input_pubsub e)]
             else []),
       if stopped then Returned
       else if (List.length (observed P wakes) =? List.length wakes)%nat
            then Waiting else CheckFailed).
Proof.
  intros stopped.
  destruct (loop_shape P e cb Hcb wakes (initial_locals e cyccnt0))
    as (Hframes & _ & Hout).
  unfold game_engine_run.
  destruct (loop P e wakes (initial_locals e cyccnt0)) as [calls out].
  cbn [fst snd] in *. exists calls. split; [assumption|].
  subst out. fold stopped. destruct stopped; [reflexivity|].
  destruct (List.length (observed P wakes) =? List.length wakes)%nat; reflexivity.
Qed.

Lemma run_shape_witness :
  exists frames,
    forallb is_frame_call frames = true /\
    game_engine_run flipper e_demo 0
      [{| flags := 1; events := []; cyccnt := 1000 |};
       {| flags := 2 ^ 31; events := []; cyccnt := 2000 |}] =
      ([GuiDirectDrawAcquire 1; FuriPubsubSubscribe 2; ClockTimerStart F32.sixty]
         ++ frames ++ [], CheckFailed).
Proof.
  exact (run_shape flipper e_demo 1%positive 0
           [{| flags := 1; events := []; cyccnt := 1000 |};
            {| flags := 2 ^ 31; events := []; cyccnt := 2000 |}] eq_refl).
Defined.

(** X2: the callback is called once for every return of the wait with
    the update flag that the loop gets to see, the one that also asks to
    stop included: no return with the flag is skipped, and none gives
    more than one frame. *)
Theorem one_frame_per_observed_update
        (P : Platform) (e : GameEngine) (cb : Callback) (cyccnt0 : Z)
        (wakes : list Wake)
        (Hcb : callback (settings e) = Some cb) :
  callback_calls (fst (game_engine_run P e cyccnt0 wakes)) =
    updates (observed P wakes).
Proof.
  destruct (loop_shape P e cb Hcb wakes (initial_locals e cyccnt0))
    as (_ & Hcount & _).
  unfold game_engine_run.
  destruct (loop P e wakes (initial_locals e cyccnt0)) as [calls out].
  cbn [fst snd] in *. rewrite !callback_calls_app, Hcount.
  destruct out; cbn; lia.
Qed.

Lemma one_frame_per_observed_update_witness :
  callback_calls
    (fst (game_engine_run flipper e_demo 0
            [{| flags := 1; events := []; cyccnt := 1000 |};
             {| flags := 3; events := []; cyccnt := 2000 |};
             {| flags := 1; events := []; cyccnt := 3000 |}])) = 2%nat.
Proof.
  exact (one_frame_per_observed_update flipper e_demo 1%positive 0
           [{| flags := 1; events := []; cyccnt := 1000 |};
            {| flags := 3; events := []; cyccnt := 2000 |};
            {| flags := 1; events := []; cyccnt := 3000 |}] eq_refl).
Defined.

(** X3: an engine that the allocation returned can be run: it acquires
    the GUI and subscribes to the input channel that the allocation
    looked up, starts the timer at the rate of the settings given to the
    allocation, and never calls a [NULL] callback. *)
Theorem allocated_engine_runs
        (P : Platform) (os : Furi) (s : GameEngineSettings) (e : GameEngine)
        (cyccnt0 : Z) (wakes : list Wake)
        (Halloc : game_engine_alloc os s = Ok e) :
  exists rest out,
    game_engine_run P e cyccnt0 wakes =
      (GuiDirectDrawAcquire (RECORD_GUI os)
         :: FuriPubsubSubscribe (RECORD_INPUT_EVENTS os)
         :: ClockTimerStart (fps s) :: rest, out) /\
    out <> NullCallback.
Proof.
  unfold game_engine_alloc, furi_check in Halloc.
  destruct (callback s) as [cb|] eqn:Hcb; [|discriminate].
  inversion Halloc; subst e; clear Halloc.
  match goal with |- context [game_engine_run P ?e0 _ _] => set (e := e0) end.
  destruct (loop_shape P e cb Hcb wakes (initial_locals e cyccnt0))
    as (_ & _ & Hout).
  unfold game_engine_run.
  destruct (loop P e wakes (initial_locals e cyccnt0)) as [calls out].
  cbn [fst snd] in *. eexists _, out. split; [reflexivity|].
  rewrite Hout.
  destruct (existsb _ _); [discriminate|].
  destruct (_ =? _)%nat; discriminate.
Qed.

Lemma allocated_engine_runs_witness :
  exists rest out,
    game_engine_run flipper e_demo 0 [w_slow] =
      (GuiDirectDrawAcquire 1 :: FuriPubsubSubscribe 2
         :: ClockTimerStart F32.sixty :: rest, out) /\
    out <> NullCallback.
Proof.
  exact (allocated_engine_runs flipper
           {| RECORD_GUI := 1; RECORD_INPUT_EVENTS := 2;
              furi_thread_get_current_id := 3 |}
           (settings e_demo) e_demo 0 [w_slow] eq_refl).
Defined.

(** X4: the settings that [game_engine_settings_init] returns are
    refused by the allocation as they are; with a callback put in, and
    nothing else changed, they are accepted, and the engine runs at 60
    frames per second without the overlay. *)
Theorem default_settings_need_callback (os : Furi) (cb : Callback) :
  game_engine_alloc os game_engine_settings_init = FuriCheckFailed /\
  exists e,
    game_engine_alloc os
      {| fps := fps game_engine_settings_init;
         show_fps := show_fps game_engine_settings_init;
         callback := Some cb;
         context := context game_engine_settings_init |} = Ok e /\
    fps (settings e) = F32.sixty /\
    F32.sixty = F32.of_u32 60 /\
    show_fps (settings e) = false /\
    context (settings e) = None.
Proof.
  split; [reflexivity|]. eexists. split; [reflexivity|].
  repeat split.
Qed.

(** ** Masks inside masks *)

(** [a] has no bit outside [m], bit by bit. *)
Lemma within_bits (a m : Z) :
  Z.land a (U32.not m) = 0 <->
  (forall i, 0 <= i < 32 -> Z.testbit a i = true -> Z.testbit m i = true).
Proof.
  split.
  - intros H i Hi Ha.
    assert (Hb : Z.testbit (Z.land a (U32.not m)) i = false)
      by (rewrite H; apply Z.bits_0).
    rewrite Z.land_spec, testbit_not, Ha in Hb by lia.
    destruct (Z.ltb_spec i 32); [|lia].
    destruct (Z.testbit m i); [reflexivity | discriminate].
  - intros H. mask_bits i.
    destruct (Z.ltb_spec i 32) as [Hlt | Hge]; [|apply andb_false_r].
    destruct (Z.testbit a i) eqn:Ha; [|reflexivity].
    rewrite (H i) by (try lia; assumption). reflexivity.
Qed.

Lemma in_range_lor (a b : Z) :
  U32.in_range a -> U32.in_range b -> U32.in_range (Z.lor a b).
Proof.
  intros Ha Hb. apply in_range_bits.
  - apply Z.lor_nonneg. unfold U32.in_range in *. lia.
  - intros i Hi.
    now rewrite Z.lor_spec, (testbit_high a i Ha Hi), (testbit_high b i Hb Hi).
Qed.

Lemma in_range_land (a b : Z) : U32.in_range a -> U32.in_range (Z.land a b).
Proof.
  intros Ha. apply in_range_bits.
  - apply Z.land_nonneg. left. unfold U32.in_range in *. lia.
  - intros i Hi. now rewrite Z.land_spec, (testbit_high a i Ha Hi).
Qed.

Lemma fold_keys_within (ks : list Z) (k : Z) :
  In k ks ->
  Z.land (U32.wrap k)
         (U32.not (fold_right (fun k m => Z.lor (U32.wrap k) m) 0 ks)) = 0.
Proof.
  intros Hin. apply within_bits. intros i Hi Hk.
  induction ks as [|k' ks IH]; [destruct Hin|].
  cbn [fold_right]. rewrite Z.lor_spec.
  destruct Hin as [-> | Hin].
  - rewrite Hk. reflexivity.
  - rewrite (IH Hin). apply orb_true_r.
Qed.

Lemma keys_at_within (P : Platform) (k : Z) :
  Z.land (U32.wrap (keys_at P k)) (U32.not (all_keys P)) = 0.
Proof.
  unfold keys_at, all_keys.
  destruct (nth_in_or_default (Z.to_nat k) (keys P) 0) as [Hin | ->].
  - now apply fold_keys_within.
  - reflexivity.
Qed.

(** ** The accumulator *)

Lemma input_events_callback_ok (P : Platform) (event : InputEvent) (acc : Z) :
  U32.in_range acc -> Z.land acc (U32.not (all_keys P)) = 0 ->
  U32.in_range (input_events_callback P event acc) /\
  Z.land (input_events_callback P event acc) (U32.not (all_keys P)) = 0.
Proof.
  intros Hr Hw. unfold input_events_callback.
  destruct (U32.wrap (key event) <? keys_count P); [|auto].
  destruct (type event); [| |auto].
  - unfold U32.or_assign. split.
    + apply in_range_lor; [assumption | apply wrap_range].
    + pose proof (keys_at_within P (U32.wrap (key event))) as Hk.
      rewrite within_bits in *. intros i Hi. rewrite Z.lor_spec.
      intros Hor. apply orb_prop in Hor as [Ha | Hb]; auto.
  - unfold U32.and_not_assign. split.
    + now apply in_range_land.
    + rewrite within_bits in *. intros i Hi. rewrite Z.land_spec.
      intros Hand. apply andb_prop in Hand as [Ha _]. auto.
Qed.

Lemma deliver_ok (P : Platform) (events : list InputEvent) (acc : Z) :
  U32.in_range acc -> Z.land acc (U32.not (all_keys P)) = 0 ->
  U32.in_range (deliver P events acc) /\
  Z.land (deliver P events acc) (U32.not (all_keys P)) = 0.
Proof.
  revert acc. unfold deliver.
  induction events as [|ev events IH]; intros acc Hr Hw; cbn [fold_left].
  - auto.
  - destruct (input_events_callback_ok P ev acc Hr Hw) as [Hr' Hw'].
    now apply IH.
Qed.

(** ** What the loop keeps true *)

Lemma initial_locals_ok (P : Platform) (e : GameEngine) (cyccnt0 : Z) :
  locals_ok P e (initial_locals e cyccnt0).
Proof.
  unfold locals_ok, initial_locals. cbn.
  repeat split; try reflexivity; discriminate.
Qed.

Lemma on_wake_ok (P : Platform) (e : GameEngine) (w : Wake) (l : Locals) :
  locals_ok P e l -> locals_ok P e (on_wake P w l).
Proof.
  intros (He & Hr & Hw & Hpr & Hpw). unfold locals_ok, on_wake. cbn [run input_state input_prev_state].
  destruct (deliver_ok P (events w) (input_state l) Hr Hw) as [Hr' Hw'].
  auto.
Qed.

Lemma frame_ok (P : Platform) (e : GameEngine) (w : Wake) (l l1 : Locals) :
  locals_ok P e l -> snd (frame P e w l) = Some l1 -> locals_ok P e l1.
Proof.
  intros (He & Hr & Hw & Hpr & Hpw). unfold frame.
  destruct (callback (settings e)); [|discriminate].
  cbn [snd]. intros H. inversion H; subst; clear H.
  unfold locals_ok. cbn [run engine input_state input_prev_state]. auto.
Qed.

Lemma loop_on_callback_ok (P : Platform) (e : GameEngine)
      (Q : RunningGameEngine -> InputState -> Prop) :
  (forall w l, locals_ok P e l -> Forall (on_callback Q) (fst (frame P e w l))) ->
  forall wakes l,
    locals_ok P e l -> Forall (on_callback Q) (fst (loop P e wakes l)).
Proof.
  intros Hframe. induction wakes as [|w rest IH]; intros l Hl; cbn [loop].
  - constructor.
  - fold (on_wake P w l).
    pose proof (on_wake_ok P e w l Hl) as Hl0.
    destruct (flag_set (flags w) (FuriFlagError P)); [constructor|].
    destruct (flag_set (flags w) GameThreadFlagUpdate).
    + pose proof (Hframe w _ Hl0) as Hcalls.
      pose proof (frame_ok P e w (on_wake P w l)) as Hnext.
      destruct (frame P e w (on_wake P w l)) as [calls [l1|]]; cbn [fst snd] in *;
        [|assumption].
      destruct (flag_set (flags w) GameThreadFlagStop); [assumption|].
      specialize (IH l1 (Hnext l1 Hl0 eq_refl)).
      destruct (loop P e rest l1) as [more out]. cbn [fst] in *.
      apply Forall_app; split; assumption.
    + destruct (flag_set (flags w) GameThreadFlagStop); [constructor|].
      specialize (IH _ Hl0).
      destruct (loop P e rest (on_wake P w l)) as [more out]. assumption.
Qed.

Lemma run_on_callback_ok (P : Platform) (e : GameEngine)
      (Q : RunningGameEngine -> InputState -> Prop) :
  (forall w l, locals_ok P e l -> Forall (on_callback Q) (fst (frame P e w l))) ->
  forall cyccnt0 wakes,
    Forall (on_callback Q) (fst (game_engine_run P e cyccnt0 wakes)).
Proof.
  intros Hframe cyccnt0 wakes. unfold game_engine_run.
  pose proof (loop_on_callback_ok P e Q Hframe wakes (initial_locals e cyccnt0)
                (initial_locals_ok P e cyccnt0)) as H.
  destruct (loop P e wakes (initial_locals e cyccnt0)) as [calls out].
  cbn [fst] in *.
  repeat (constructor; [exact I|]).
  apply Forall_app; split; [assumption|].
  destruct out; repeat constructor.
Qed.

(** X5: whatever events arrive, in any number and order, the accumulator
    stays a 32-bit word and never gets a bit that is not in the table
    [keys]; so the [held] mask of every call of the callback, in every
    run, is made of bits of the table only. *)
Theorem held_has_table_bits_only :
  (forall (P : Platform) (events : list InputEvent),
      U32.in_range (deliver P events 0) /\
      Z.land (deliver P events 0) (U32.not (all_keys P)) = 0) /\
  (forall (P : Platform) (e : GameEngine) (cyccnt0 : Z) (wakes : list Wake),
      Forall
        (on_callback
           (fun _ input =>
              U32.in_range (held input) /\
              Z.land (held input) (U32.not (all_keys P)) = 0))
        (fst (game_engine_run P e cyccnt0 wakes))).
Proof.
  split.
  - intros P events. apply deliver_ok; [|reflexivity].
    split; [lia | reflexivity].
  - intros P e cyccnt0 wakes. apply run_on_callback_ok.
    intros w l (He & Hr & Hw & _). apply frame_on_callback. cbn [held read_input].
    auto.
Qed.

(** X6: every handle passed to the callback refers to the engine that
    runs, so that its [delta_frames] is the rate measured for the frame
    over the rate configured for that engine. *)
Theorem handle_refers_to_running_engine
        (P : Platform) (e : GameEngine) (cyccnt0 : Z) (wakes : list Wake) :
  Forall
    (on_callback
       (fun r _ =>
          engine r = e /\
          running_game_engine_get_delta_frames r =
            F32.div (run_fps r) (fps (settings e))))
    (fst (game_engine_run P e cyccnt0 wakes)).
Proof.
  apply run_on_callback_ok.
  intros w l (He & _). apply frame_on_callback.
  unfold running_game_engine_get_delta_frames. cbn [engine run_fps].
  rewrite He. auto.
Qed.

(** ** Edges *)

(** X7: the three masks of a frame agree: a pressed key is held and was
    not held before, a released key is not held and was held before, and
    the previous snapshot, a 32-bit word, can be told from them: it is
    the held keys without the pressed ones, with the released ones. *)
Theorem edges_agree_with_held
        (input_current_state input_prev_state : Z)
        (Hprev : U32.in_range input_prev_state) :
  let input := read_input input_current_state input_prev_state in
  Z.land (pressed input) (held input) = pressed input /\
  Z.land (pressed input) input_prev_state = 0 /\
  Z.land (released input) (held input) = 0 /\
  Z.land (released input) input_prev_state = released input /\
  Z.lor (Z.land (held input) (U32.not (pressed input))) (released input)
    = input_prev_state.
Proof.
  cbn [read_input held pressed released].
  repeat split; mask_bits i;
    try (destruct (Z.testbit input_current_state i),
                  (Z.testbit input_prev_state i), (i <? 32); reflexivity).
  destruct (Z.ltb_spec i 32) as [Hlt | Hge].
  - destruct (Z.testbit input_current_state i), (Z.testbit input_prev_state i);
      reflexivity.
  - rewrite (testbit_high _ _ Hprev Hge).
    destruct (Z.testbit input_current_state i); reflexivity.
Qed.

Lemma edges_agree_with_held_witness :
  let input := read_input 6 3 in
  Z.land (pressed input) (held input) = pressed input /\
  Z.land (pressed input) 3 = 0 /\
  Z.land (released input) (held input) = 0 /\
  Z.land (released input) 3 = released input /\
  Z.lor (Z.land (held input) (U32.not (pressed input))) (released input) = 3.
Proof.
  apply (edges_agree_with_held 6 3). vm_compute. split; [discriminate | reflexivity].
Defined.

(** ** Sequences of events *)

Lemma press_release_bits (acc k : Z) :
  Z.land (Z.lor acc (U32.wrap k)) (U32.not k) = Z.land acc (U32.not k).
Proof.
  mask_bits i. rewrite testbit_wrap.
  destruct (Z.testbit acc i), (Z.testbit k i), (i <? 32); reflexivity.
Qed.

Lemma release_press_bits (acc k : Z) :
  U32.in_range acc ->
  Z.lor (Z.land acc (U32.not k)) (U32.wrap k) = Z.lor acc (U32.wrap k).
Proof.
  intros Hacc. mask_bits i. rewrite testbit_wrap.
  destruct (Z.ltb_spec i 32) as [Hlt | Hge].
  - destruct (Z.testbit acc i), (Z.testbit k i); reflexivity.
  - now rewrite (testbit_high _ _ Hacc Hge).
Qed.

(** X8: of two events for the same key, the second decides when it is a
    press or a release: the accumulator is what the second event alone
    would have made it.  A repeated press changes nothing, and a press
    after a release, or a release after a press, undoes it. *)
Theorem last_event_wins
        (P : Platform) (first second : InputEvent) (input_state : Z)
        (Hacc : U32.in_range input_state)
        (Hkey : key first = key second)
        (Htype : type second = InputTypePress \/ type second = InputTypeRelease) :
  input_events_callback P second (input_events_callback P first input_state) =
    input_events_callback P second input_state.
Proof.
  unfold input_events_callback. rewrite Hkey.
  destruct (U32.wrap (key second) <? keys_count P); [|reflexivity].
  set (k := keys_at P (U32.wrap (key second))).
  unfold U32.or_assign, U32.and_not_assign.
  destruct Htype as [-> | ->]; destruct (type first); try reflexivity.
  - mask_bits i. destruct (Z.testbit input_state i), (Z.testbit (U32.wrap k) i);
      reflexivity.
  - now apply release_press_bits.
  - apply press_release_bits.
  - mask_bits i.
    destruct (Z.testbit input_state i), (Z.testbit k i), (i <? 32); reflexivity.
Qed.

Lemma last_event_wins_witness :
  input_events_callback flipper {| key := 1; type := InputTypeRelease |}
    (input_events_callback flipper {| key := 1; type := InputTypePress |} 5) =
  input_events_callback flipper {| key := 1; type := InputTypeRelease |} 5.
Proof.
  apply (last_event_wins flipper {| key := 1; type := InputTypePress |}
           {| key := 1; type := InputTypeRelease |} 5).
  - vm_compute. split; [discriminate | reflexivity].
  - reflexivity.
  - right. reflexivity.
Defined.

Lemma deliver_app (P : Platform) (a b : list InputEvent) (acc : Z) :
  deliver P (a ++ b) acc = deliver P b (deliver P a acc).
Proof.
  unfold deliver. apply fold_left_app.
Qed.

(** A press and a release of a key that is not held leave the
    accumulator as it was. *)
Lemma tap_leaves_accumulator
        (P : Platform) (before : list InputEvent) (k : Z)
        (Hup : Z.land (deliver P before 0)
                      (U32.wrap (keys_at P (U32.wrap k))) = 0) :
  deliver P (before ++ [{| key := k; type := InputTypePress |};
                        {| key := k; type := InputTypeRelease |}]) 0
    = deliver P before 0.
Proof.
  rewrite deliver_app.
  destruct (deliver_ok P before 0) as [Hr _]; [split; [lia | reflexivity] | reflexivity |].
  set (acc := deliver P before 0) in *.
  unfold deliver. cbn [fold_left]. unfold input_events_callback. cbn [key type].
  destruct (U32.wrap k <? keys_count P); [|reflexivity].
  set (kv := keys_at P (U32.wrap k)) in *.
  unfold U32.or_assign, U32.and_not_assign. rewrite press_release_bits.
  mask_bits i.
  assert (Hb : Z.testbit acc i && Z.testbit (U32.wrap kv) i = false)
    by (rewrite <- Z.land_spec, Hup; apply Z.bits_0).
  rewrite testbit_wrap in Hb.
  destruct (Z.ltb_spec i 32) as [Hlt | Hge].
  - destruct (Z.testbit acc i), (Z.testbit kv i); simpl in *; congruence.
  - rewrite (testbit_high _ _ Hr Hge). reflexivity.
Qed.


(** ** Consecutive frames *)

(** X10: an edge is reported once.  Of two frames in a row with no event
    delivered between them, the second reports the same keys held as the
    first, and none pressed or released. *)
Theorem edges_are_reported_once
        (P : Platform) (e : GameEngine) (cb : Callback)
        (w1 w2 : Wake) (rest : list Wake) (l : Locals)
        (Hcb : callback (settings e) = Some cb)
        (Herr1 : flag_set (flags w1) (FuriFlagError P) = false)
        (Hupdate1 : flag_set (flags w1) GameThreadFlagUpdate = true)
        (Hstop1 : flag_set (flags w1) GameThreadFlagStop = false)
        (Herr2 : flag_set (flags w2) (FuriFlagError P) = false)
        (Hupdate2 : flag_set (flags w2) GameThreadFlagUpdate = true)
        (Hquiet : events w2 = []) :
  exists r1 input1 r2 between tail,
    fst (loop P e (w1 :: w2 :: rest) l) =
      CanvasReset :: ClientCallback cb r1 input1 (context (settings e))
        :: between
        ++ CanvasReset
        :: ClientCallback cb r2
             {| held := held input1; pressed := 0; released := 0 |}
             (context (settings e))
        :: tail /\
    callback_calls between = 0%nat.
Proof.
  destruct (loop_step P e cb w1 (w2 :: rest) l Hcb) as (calls1 & l1 & Hf1 & ->).
  rewrite Herr1, Hstop1. rewrite Hupdate1 in Hf1.
  rewrite (frame_callback P e w1 (on_wake P w1 l) cb Hcb) in Hf1. cbv zeta in Hf1.
  injection Hf1 as <- <-.
  match goal with
  | |- context [loop P e (w2 :: rest) ?x] => set (lnext := x)
  end.
  destruct (loop_step P e cb w2 rest lnext Hcb) as (calls2 & l2 & Hf2 & ->).
  rewrite Herr2. rewrite Hupdate2 in Hf2.
  rewrite (frame_callback P e w2 (on_wake P w2 lnext) cb Hcb) in Hf2. cbv zeta in Hf2.
  injection Hf2 as <- _.
  rewrite Hquiet. cbn [deliver fold_left].
  set (acc := deliver P (events w1) (input_state l)).
  assert (Hin : read_input acc acc =
                {| held := held (read_input acc (input_prev_state l));
                   pressed := 0; released := 0 |}).
  { unfold read_input. cbn [held]. f_equal.
    - mask_bits i. destruct (Z.testbit acc i), (i <? 32); reflexivity.
    - mask_bits i. destruct (Z.testbit acc i), (i <? 32); reflexivity. }
  rewrite Hin.
  destruct (flag_set (flags w2) GameThreadFlagStop); cbn [fst app];
    eexists _, _, _, _, _;
    (split; [reflexivity | destruct (show_fps (settings e)); reflexivity]).
Qed.

Lemma edges_are_reported_once_witness :
  exists r1 input1 r2 between tail,
    fst (loop flipper e_demo
           ({| flags := 1; events := [{| key := 4; type := InputTypePress |}];
               cyccnt := 1000 |}
              :: {| flags := 1; events := []; cyccnt := 2000 |} :: [])
           (initial_locals e_demo 0)) =
      CanvasReset :: ClientCallback 1%positive r1 input1 None
        :: between
        ++ CanvasReset
        :: ClientCallback 1%positive r2
             {| held := held input1; pressed := 0; released := 0 |} None
        :: tail /\
    callback_calls between = 0%nat.
Proof.
  apply (edges_are_reported_once
           flipper e_demo 1%positive
           {| flags := 1; events := [{| key := 4; type := InputTypePress |}];
              cyccnt := 1000 |}
           {| flags := 1; events := []; cyccnt := 2000 |} []
           (initial_locals e_demo 0)); reflexivity.
Defined.

(** X11: in the first frame of a run every key that is held is reported
    as pressed and none as released: the accumulator and the previous
    snapshot both start from zero, so the keys of the first frame are the
    ones whose events arrived since the run began. *)
Theorem first_frame_presses_all_held
        (P : Platform) (e : GameEngine) (cb : Callback) (cyccnt0 : Z)
        (w : Wake) (rest : list Wake)
        (Hcb : callback (settings e) = Some cb)
        (Herr : flag_set (flags w) (FuriFlagError P) = false)
        (Hupdate : flag_set (flags w) GameThreadFlagUpdate = true) :
  exists r tail,
    fst (game_engine_run P e cyccnt0 (w :: rest)) =
      setup e
        ++ CanvasReset
        :: ClientCallback cb r
             {| held := deliver P (events w) 0;
                pressed := deliver P (events w) 0;
                released := 0 |}
             (context (settings e))
        :: tail.
Proof.
  unfold game_engine_run. cbn [loop]. rewrite Herr, Hupdate.
  fold (on_wake P w (initial_locals e cyccnt0)).
  rewrite (frame_callback P e w _ cb Hcb). cbv zeta.
  cbn [on_wake initial_locals input_state input_prev_state].
  destruct (deliver_ok P (events w) 0) as [Hr _];
    [split; [lia | reflexivity] | reflexivity |].
  unfold read_input.
  rewrite (Z.land_comm (deliver P (events w) 0)), (not_zero_land _ Hr), Z.land_0_r.
  destruct (flag_set (flags w) GameThreadFlagStop).
  - cbn [fst]. eexists _, _. cbn [app]. reflexivity.
  - match goal with |- context [loop P e rest ?l1] => destruct (loop P e rest l1) end.
    cbn [fst]. eexists _, _. cbn [app]. reflexivity.
Qed.

Lemma first_frame_presses_all_held_witness :
  exists r tail,
    fst (game_engine_run flipper e_demo 0
           ({| flags := 1; events := [{| key := 4; type := InputTypePress |}];
               cyccnt := 1000 |} :: [])) =
      setup e_demo
        ++ CanvasReset
        :: ClientCallback 1%positive r
             {| held := 16; pressed := 16; released := 0 |} None
        :: tail.
Proof.
  exact (first_frame_presses_all_held flipper e_demo 1%positive 0
           {| flags := 1; events := [{| key := 4; type := InputTypePress |}];
              cyccnt := 1000 |} [] eq_refl eq_refl eq_refl).
Defined.

(** ** The overlay *)

Lemma loop_calls_Forall (P : Platform) (e : GameEngine) (R : Effect -> Prop) :
  (forall w l, Forall R (fst (frame P e w l))) ->
  forall wakes l, Forall R (fst (loop P e wakes l)).
Proof.
  intros Hframe. induction wakes as [|w rest IH]; intros l; cbn [loop].
  - constructor.
  - fold (on_wake P w l).
    destruct (flag_set (flags w) (FuriFlagError P)); [constructor|].
    destruct (flag_set (flags w) GameThreadFlagUpdate).
    + pose proof (Hframe w (on_wake P w l)) as Hcalls.
      destruct (frame P e w (on_wake P w l)) as [calls [l1|]]; cbn [fst] in *;
        [|assumption].
      destruct (flag_set (flags w) GameThreadFlagStop); [assumption|].
      specialize (IH l1). destruct (loop P e rest l1) as [more out]. cbn [fst] in *.
      apply Forall_app; split; assumption.
    + destruct (flag_set (flags w) GameThreadFlagStop); [constructor|].
      specialize (IH (on_wake P w l)).
      destruct (loop P e rest (on_wake P w l)) as [more out]. assumption.
Qed.

(** X12: without [show_fps] in the settings no run ever sets the draw
    colour or prints on the canvas: what is committed is what the
    callback drew. *)
Theorem no_overlay_unless_asked
        (P : Platform) (e : GameEngine) (cyccnt0 : Z) (wakes : list Wake)
        (Hoff : show_fps (settings e) = false) :
  Forall (fun call => is_overlay_call call = false)
         (fst (game_engine_run P e cyccnt0 wakes)).
Proof.
  unfold game_engine_run.
  pose proof (loop_calls_Forall P e (fun call => is_overlay_call call = false)) as H.
  specialize (H ltac:(intros w l; unfold frame; rewrite Hoff;
                       destruct (callback (settings e)); repeat constructor)
                wakes (initial_locals e cyccnt0)).
  destruct (loop P e wakes (initial_locals e cyccnt0)) as [calls out]. cbn [fst] in *.
  repeat (constructor; [reflexivity|]).
  apply Forall_app; split; [assumption|].
  destruct out; repeat constructor.
Qed.

Lemma no_overlay_unless_asked_witness :
  Forall (fun call => is_overlay_call call = false)
         (fst (game_engine_run flipper
                 {| gui := 1; input_pubsub := 2; thread_id := 3;
                    settings := {| fps := F32.sixty; show_fps := false;
                                   callback := Some 1%positive; context := None |} |}
                 0 [w_slow])).
Proof.
  exact (no_overlay_unless_asked flipper
           {| gui := 1; input_pubsub := 2; thread_id := 3;
              settings := {| fps := F32.sixty; show_fps := false;
                             callback := Some 1%positive; context := None |} |}
           0 [w_slow] eq_refl).
Defined.

Lemma roundf_not_finite (x : float32) :
  F32.is_finite x = false -> F32.roundf_to_u32 x = None.
Proof.
  destruct x; try discriminate; reflexivity.
Qed.

(** X13: with the overlay on, a frame with no cycle elapsed converts a
    rate that is not a finite number to [uint32_t] for the text of the
    overlay: a conversion that C leaves undefined. *)
Theorem overlay_of_zero_elapsed_is_undefined
        (P : Platform) (e : GameEngine) (cb : Callback) (w : Wake) (l : Locals)
        (Hcb : callback (settings e) = Some cb)
        (Hon : show_fps (settings e) = true)
        (Hzero : time_delta_of (U32.wrap (cyccnt w)) (time_start l) = 0) :
  exists r input,
    fst (frame P e w l) =
      [CanvasReset; ClientCallback cb r input (context (settings e));
       CanvasSetColorXOR; CanvasPrintf 0 7 "%u" None; CanvasCommit] /\
    F32.is_finite (run_fps r) = false.
Proof.
  rewrite (frame_callback P e w l cb Hcb). cbv zeta. rewrite Hon, Hzero.
  cbn [fst run_fps app].
  assert (Hinf : F32.is_finite (actual_fps (SystemCoreClock P) 0) = false)
    by apply div_by_zero_not_finite.
  rewrite (roundf_not_finite _ Hinf).
  eexists _, _. split; [reflexivity | exact Hinf].
Qed.

Lemma overlay_of_zero_elapsed_is_undefined_witness :
  exists r input,
    fst (frame flipper e_demo {| flags := 1; events := []; cyccnt := 1000 |}
               (initial_locals e_demo 1000)) =
      [CanvasReset; ClientCallback 1%positive r input None;
       CanvasSetColorXOR; CanvasPrintf 0 7 "%u" None; CanvasCommit] /\
    F32.is_finite (run_fps r) = false.
Proof.
  exact (overlay_of_zero_elapsed_is_undefined
           flipper e_demo 1%positive
           {| flags := 1; events := []; cyccnt := 1000 |}
           (initial_locals e_demo 1000) eq_refl eq_refl eq_refl).
Defined.

(** ** The accessors at the edge *)

(** X14: in a frame with no cycle elapsed, on a platform whose clock
    frequency is not zero, the handle passed to the callback gives a
    [delta_time] of zero and, for a configured rate that is a number
    other than zero, a [delta_frames] that is infinite. *)
Theorem zero_elapsed_accessors
        (P : Platform) (e : GameEngine) (cb : Callback) (w : Wake) (l : Locals)
        (s : bool) (m : positive) (x : Z)
        (Hcb : callback (settings e) = Some cb)
        (Hzero : time_delta_of (U32.wrap (cyccnt w)) (time_start l) = 0)
        (Hclock : 0 < U32.wrap (SystemCoreClock P))
        (Htarget : fps (settings (engine (run l))) = S754_finite s m x) :
  exists r input rest,
    fst (frame P e w l) =
      CanvasReset :: ClientCallback cb r input (context (settings e)) :: rest /\
    running_game_engine_get_delta_time r = S754_zero false /\
    running_game_engine_get_delta_frames r = S754_infinity s.
Proof.
  rewrite (frame_callback P e w l cb Hcb). cbv zeta. rewrite Hzero.
  cbn [fst app]. eexists _, _, _. split; [reflexivity|].
  unfold running_game_engine_get_delta_time, running_game_engine_get_delta_frames.
  cbn [run_fps engine]. rewrite Htarget. unfold actual_fps.
  destruct (of_u32_finite (U32.wrap (SystemCoreClock P))) as (mc & ec & ->).
  - split; [assumption | apply wrap_range].
  - change (F32.of_u32 0) with (S754_zero false).
    rewrite div_finite_by_zero. split; reflexivity.
Qed.

Lemma zero_elapsed_accessors_witness :
  exists r input rest,
    fst (frame flipper e_demo {| flags := 1; events := []; cyccnt := 1000 |}
               (initial_locals e_demo 1000)) =
      CanvasReset :: ClientCallback 1%positive r input None :: rest /\
    running_game_engine_get_delta_time r = S754_zero false /\
    running_game_engine_get_delta_frames r = S754_infinity false.
Proof.
  apply (zero_elapsed_accessors
           flipper e_demo 1%positive
           {| flags := 1; events := []; cyccnt := 1000 |}
           (initial_locals e_demo 1000) false 15728640 (-18)).
  - reflexivity.
  - reflexivity.
  - reflexivity.
  - reflexivity.
Defined.

(** ** The sign of the measured rate *)

Lemma shr_1_nonneg (mrs : shr_record) : 0 <= shr_m mrs -> 0 <= shr_m (shr_1 mrs).
Proof.
  destruct mrs as [m r s]. cbn [shr_m]. intros Hm.
  destruct m as [|[p|p|]|p]; cbn [shr_1 shr_m]; lia.
Qed.

Lemma shr_nonneg (mrs : shr_record) (e n : Z) :
  0 <= shr_m mrs -> 0 <= shr_m (fst (shr mrs e n)).
Proof.
  intros Hm. destruct n as [|p|p]; cbn [shr fst]; try assumption.
  rewrite iter_pos_nat.
  induction (Pos.to_nat p) as [|k IH]; cbn [Nat.iter nat_rect]; [assumption|].
  now apply shr_1_nonneg.
Qed.

Lemma shr_fexp_nonneg (m e : Z) (l : location) :
  0 <= m -> 0 <= shr_m (fst (shr_fexp F32.prec F32.emax m e l)).
Proof.
  intros Hm. unfold shr_fexp. apply shr_nonneg.
  now rewrite shr_record_of_loc_m.
Qed.

(** Rounding a mantissa that is not negative never gives NaN, and keeps
    the sign. *)
Lemma binary_round_aux_sign (s : bool) (m e : Z) (l : location) :
  0 <= m ->
  is_nonnegative (binary_round_aux F32.prec F32.emax s m e l) = negb s.
Proof.
  intros Hm. unfold binary_round_aux.
  pose proof (shr_fexp_nonneg m e l Hm) as H1.
  destruct (shr_fexp F32.prec F32.emax m e l) as [mrs1 e1]. cbn [fst] in H1.
  pose proof (round_nearest_even_bounds (shr_m mrs1) (loc_of_shr_record mrs1)) as Hr.
  set (m2 := round_nearest_even (shr_m mrs1) (loc_of_shr_record mrs1)) in *.
  pose proof (shr_fexp_nonneg m2 e1 loc_Exact ltac:(lia)) as H3.
  destruct (shr_fexp F32.prec F32.emax m2 e1 loc_Exact) as [mrs3 e3]. cbn [fst] in H3.
  destruct (shr_m mrs3) as [|m3|m3]; try lia; try reflexivity.
  destruct (e3 <=? F32.emax - F32.prec); reflexivity.
Qed.

Lemma div_positive_sign (m1 m2 : positive) (e1 e2 : Z) :
  is_nonnegative
    (F32.div (S754_finite false m1 e1) (S754_finite false m2 e2)) = true.
Proof.
  unfold F32.div, SFdiv, SFdiv_core_binary.
  match goal with
  | |- context [Z.div_eucl ?a (Z.pos m2)] =>
      assert (Ha : 0 <= a); [|pose proof (Z.div_pos a (Z.pos m2) Ha ltac:(lia)) as Hq;
                               unfold Z.div in Hq;
                               destruct (Z.div_eucl a (Z.pos m2)) as [q r]]
  end.
  - match goal with
    | |- 0 <= match ?x with _ => _ end => destruct x
    end; try lia.
    apply Z.shiftl_nonneg. lia.
  - now rewrite binary_round_aux_sign.
Qed.

(** X15: on a platform whose clock frequency is not zero, the rate in
    every handle passed to the callback is zero, a positive number or
    plus infinity, never NaN and never negative; and so is the
    [delta_time] of the handle. *)
Theorem measured_rate_is_never_nan
        (P : Platform) (e : GameEngine) (cyccnt0 : Z) (wakes : list Wake)
        (Hclock : 0 < U32.wrap (SystemCoreClock P)) :
  Forall
    (on_callback
       (fun r _ =>
          is_nonnegative (run_fps r) = true /\
          is_nonnegative (running_game_engine_get_delta_time r) = true))
    (fst (game_engine_run P e cyccnt0 wakes)).
Proof.
  apply run_on_callback. intros w l. apply frame_on_callback.
  unfold running_game_engine_get_delta_time. cbn [run_fps].
  set (d := time_delta_of (U32.wrap (cyccnt w)) (time_start l)).
  assert (Hd : U32.in_range d) by apply wrap_range.
  unfold actual_fps.
  destruct (of_u32_finite (U32.wrap (SystemCoreClock P))) as (mc & ec & ->);
    [split; [assumption | apply wrap_range]|].
  assert (Hrate : is_nonnegative (F32.div (S754_finite false mc ec) (F32.of_u32 d))
                  = true).
  { destruct (Z.eq_dec d 0) as [-> | Hnz].
    - reflexivity.
    - destruct (of_u32_finite d) as (md & ed & ->);
        [unfold U32.in_range in Hd; lia|].
      apply div_positive_sign. }
  split; [assumption|].
  destruct (F32.div (S754_finite false mc ec) (F32.of_u32 d)) as [s|s| |s m x];
    try discriminate; destruct s; try discriminate; try reflexivity.
  apply div_positive_sign.
Qed.

Lemma measured_rate_is_never_nan_witness :
  Forall
    (on_callback
       (fun r _ =>
          is_nonnegative (run_fps r) = true /\
          is_nonnegative (running_game_engine_get_delta_time r) = true))
    (fst (game_engine_run flipper e_demo 0 [w_slow])).
Proof.
  apply (measured_rate_is_never_nan flipper e_demo 0 [w_slow]). reflexivity.
Defined.

(** ** Signals *)

Lemma flags_set_word (tid raised : Z) (tf : ThreadFlags) :
  furi_thread_flags_set tid raised tf tid = Z.lor (tf tid) (U32.wrap raised).
Proof.
  unfold furi_thread_flags_set. now rewrite Z.eqb_refl.
Qed.

Lemma flags_set_other (tid raised t : Z) (tf : ThreadFlags) :
  t <> tid -> furi_thread_flags_set tid raised tf t = tf t.
Proof.
  intros Hne. unfold furi_thread_flags_set.
  destruct (Z.eqb_spec t tid); [contradiction | reflexivity].
Qed.

(** The signals of a list, raised one after the other: [true] is a call
    of [running_game_engine_stop], [false] a tick of the timer. *)
Lemma raise_all_word (r : RunningGameEngine) (tf : ThreadFlags) (stops : list bool) :
  fold_right
    (fun (stop : bool) tf' =>
       if stop then running_game_engine_stop r tf'
       else clock_timer_callback (engine r) tf')
    tf stops (thread_id (engine r)) =
  Z.lor (tf (thread_id (engine r)))
        (Z.lor (if existsb negb stops then GameThreadFlagUpdate else 0)
               (if existsb (fun b => b) stops then GameThreadFlagStop else 0)).
Proof.
  induction stops as [|stop stops IH]; cbn [fold_right existsb].
  - now rewrite Z.lor_0_r.
  - destruct stop; cbn [negb orb].
    + unfold running_game_engine_stop at 1. rewrite flags_set_word, IH.
      change (U32.wrap GameThreadFlagStop) with GameThreadFlagStop.
      apply Z.bits_inj'; intros i Hi; repeat rewrite Z.lor_spec.
      destruct (existsb negb stops), (existsb (fun b => b) stops);
        rewrite ?Z.bits_0;
        destruct (Z.testbit (tf (thread_id (engine r))) i),
                 (Z.testbit GameThreadFlagUpdate i),
                 (Z.testbit GameThreadFlagStop i); reflexivity.
    + unfold clock_timer_callback at 1. rewrite flags_set_word, IH.
      change (U32.wrap GameThreadFlagUpdate) with GameThreadFlagUpdate.
      apply Z.bits_inj'; intros i Hi; repeat rewrite Z.lor_spec.
      destruct (existsb negb stops), (existsb (fun b => b) stops);
        rewrite ?Z.bits_0;
        destruct (Z.testbit (tf (thread_id (engine r))) i),
                 (Z.testbit GameThreadFlagUpdate i),
                 (Z.testbit GameThreadFlagStop i); reflexivity.
Qed.

Lemma raise_all_other (r : RunningGameEngine) (tf : ThreadFlags) (stops : list bool)
      (t : Z) :
  t <> thread_id (engine r) ->
  fold_right
    (fun (stop : bool) tf' =>
       if stop then running_game_engine_stop r tf'
       else clock_timer_callback (engine r) tf')
    tf stops t = tf t.
Proof.
  intros Hne. induction stops as [|stop stops IH]; cbn [fold_right]; [reflexivity|].
  destruct stop.
  - unfold running_game_engine_stop at 1. now rewrite flags_set_other.
  - unfold clock_timer_callback at 1. now rewrite flags_set_other.
Qed.

(** X16: signals are flags, not a queue.  However many ticks of the
    timer and requests to stop are raised, in whatever order, while no
    flag of the thread is pending, the wait returns once, with the update
    flag when there was a tick, the stop flag when there was a request,
    and no other bit; the flags are cleared, so that a second wait blocks
    until something is raised again, and the flags of the other threads
    are untouched. *)
Theorem signals_are_coalesced
        (r : RunningGameEngine) (tf : ThreadFlags) (stops : list bool)
        (Hclear : tf (thread_id (engine r)) = 0)
        (Hsome : stops <> []) :
  let tid := thread_id (engine r) in
  let raised :=
    fold_right
      (fun (stop : bool) tf' =>
         if stop then running_game_engine_stop r tf'
         else clock_timer_callback (engine r) tf')
      tf stops in
  exists word tf',
    furi_thread_flags_wait tid GameThreadFlagMask raised = Some (word, tf') /\
    flag_set word GameThreadFlagUpdate = existsb negb stops /\
    flag_set word GameThreadFlagStop = existsb (fun b => b) stops /\
    Z.land word (U32.not GameThreadFlagMask) = 0 /\
    furi_thread_flags_wait tid GameThreadFlagMask tf' = None /\
    (forall t, t <> tid -> tf' t = tf t).
Proof.
  intros tid raised.
  assert (Hword : raised tid =
                  Z.lor (if existsb negb stops then GameThreadFlagUpdate else 0)
                        (if existsb (fun b => b) stops then GameThreadFlagStop else 0)).
  { unfold raised, tid. now rewrite raise_all_word, Hclear. }
  assert (Hany : existsb negb stops || existsb (fun b => b) stops = true).
  { destruct stops as [|[|] stops]; [contradiction | |]; cbn [existsb negb].
    - apply orb_true_r.
    - reflexivity. }
  unfold furi_thread_flags_wait. rewrite Hword.
  assert (Hother : forall t, t <> tid ->
            (if t =? tid then Z.land (raised t) (U32.not GameThreadFlagMask)
             else raised t) = tf t).
  { intros t Hne. destruct (Z.eqb_spec t tid); [contradiction|].
    now apply raise_all_other. }
  destruct (existsb negb stops), (existsb (fun b => b) stops);
    try discriminate; cbn [orb];
    (eexists _, _; split; [reflexivity|]; cbv beta;
     rewrite Z.eqb_refl, Hword;
     repeat split; try reflexivity; exact Hother).
Qed.

Lemma signals_are_coalesced_witness :
  exists word tf',
    furi_thread_flags_wait 3 GameThreadFlagMask
      (clock_timer_callback e_demo
         (running_game_engine_stop r_slow
            (clock_timer_callback e_demo
               (clock_timer_callback e_demo (fun _ => 0))))) = Some (word, tf') /\
    flag_set word GameThreadFlagUpdate = true /\
    flag_set word GameThreadFlagStop = true /\
    Z.land word (U32.not GameThreadFlagMask) = 0 /\
    furi_thread_flags_wait 3 GameThreadFlagMask tf' = None /\
    (forall t, t <> 3 -> tf' t = 0).
Proof.
  apply (signals_are_coalesced r_slow (fun _ => 0) [false; true; false; false]).
  - reflexivity.
  - discriminate.
Defined.

Lemma wait_returns (tid awaited : Z) (tf : ThreadFlags) (word : Z) :
  tf tid = word -> Z.land word awaited <> 0 ->
  exists tf',
    furi_thread_flags_wait tid awaited tf = Some (word, tf') /\
    tf' tid = Z.land word (U32.not awaited) /\
    (forall t, t <> tid -> tf' t = tf t).
Proof.
  intros Hword Hraised. unfold furi_thread_flags_wait. rewrite Hword.
  destruct (Z.eqb_spec (Z.land word awaited) 0) as [Heq | _]; [contradiction|].
  eexists. split; [reflexivity|]. cbv beta. rewrite Z.eqb_refl, Hword.
  split; [reflexivity|].
  intros t Hne. destruct (Z.eqb_spec t tid); [contradiction | reflexivity].
Qed.

Lemma wait_blocks (tid awaited : Z) (tf : ThreadFlags) :
  Z.land (tf tid) awaited = 0 -> furi_thread_flags_wait tid awaited tf = None.
Proof.
  intros H. unfold furi_thread_flags_wait. now rewrite H.
Qed.

Lemma engine_flags_no_error (P : Platform) :
  Z.land GameThreadFlagMask (FuriFlagError P) = 0 ->
  flag_set GameThreadFlagUpdate (FuriFlagError P) = false /\
  flag_set GameThreadFlagStop (FuriFlagError P) = false /\
  flag_set GameThreadFlagMask (FuriFlagError P) = false.
Proof.
  intros H. unfold flag_set.
  change GameThreadFlagUpdate with (Z.land GameThreadFlagUpdate GameThreadFlagMask).
  change GameThreadFlagStop with (Z.land GameThreadFlagStop GameThreadFlagMask).
  rewrite <- !Z.land_assoc, H, !Z.land_0_r. auto.
Qed.

(** X17: a request to stop made by the callback does not end the frame
    it is made in.  After one tick, the wait returns with the update flag
    alone and the frame runs; the request made during it is seen by the
    next wait: when no tick came in the meantime the loop exits after that
    one frame, and when a tick did come, one more frame runs before the
    loop exits. *)
Theorem stop_from_callback_ends_run_after_frame
        (P : Platform) (e : GameEngine) (cb : Callback) (cyccnt0 : Z)
        (tf : ThreadFlags) (measured : float32)
        (events1 events2 : list InputEvent) (cyccnt1 cyccnt2 : Z)
        (Hcb : callback (settings e) = Some cb)
        (Herrbit : Z.land GameThreadFlagMask (FuriFlagError P) = 0)
        (Hclear : tf (thread_id e) = 0) :
  let r := {| engine := e; run_fps := measured |} in
  exists tf1 tf2 tf2',
    furi_thread_flags_wait (thread_id e) GameThreadFlagMask
      (clock_timer_callback e tf) = Some (GameThreadFlagUpdate, tf1) /\
    furi_thread_flags_wait (thread_id e) GameThreadFlagMask
      (running_game_engine_stop r tf1) = Some (GameThreadFlagStop, tf2) /\
    furi_thread_flags_wait (thread_id e) GameThreadFlagMask
      (clock_timer_callback e (running_game_engine_stop r tf1))
      = Some (GameThreadFlagMask, tf2') /\
    furi_thread_flags_wait (thread_id e) GameThreadFlagMask tf2 = None /\
    (let '(calls, out) :=
       game_engine_run P e cyccnt0
         [{| flags := GameThreadFlagUpdate; events := events1; cyccnt := cyccnt1 |};
          {| flags := GameThreadFlagStop; events := events2; cyccnt := cyccnt2 |}] in
     callback_calls calls = 1%nat /\ out = Returned) /\
    (let '(calls, out) :=
       game_engine_run P e cyccnt0
         [{| flags := GameThreadFlagUpdate; events := events1; cyccnt := cyccnt1 |};
          {| flags := GameThreadFlagMask; events := events2; cyccnt := cyccnt2 |}] in
     callback_calls calls = 2%nat /\ out = Returned).
Proof.
  intros r. subst r.
  destruct (engine_flags_no_error P Herrbit) as (Hu & Hs & Hm).
  unfold running_game_engine_stop, clock_timer_callback. cbn [engine].
  destruct (wait_returns (thread_id e) GameThreadFlagMask
              (furi_thread_flags_set (thread_id e) GameThreadFlagUpdate tf)
              GameThreadFlagUpdate) as (tf1 & Hwait1 & Hword1 & _).
  { rewrite flags_set_word, Hclear. reflexivity. }
  { discriminate. }
  destruct (wait_returns (thread_id e) GameThreadFlagMask
              (furi_thread_flags_set (thread_id e) GameThreadFlagStop tf1)
              GameThreadFlagStop) as (tf2 & Hwait2 & Hword2 & _).
  { rewrite flags_set_word, Hword1. reflexivity. }
  { discriminate. }
  destruct (wait_returns (thread_id e) GameThreadFlagMask
              (furi_thread_flags_set (thread_id e) GameThreadFlagUpdate
                 (furi_thread_flags_set (thread_id e) GameThreadFlagStop tf1))
              GameThreadFlagMask) as (tf2' & Hwait2' & _ & _).
  { rewrite !flags_set_word, Hword1. reflexivity. }
  { discriminate. }
  exists tf1, tf2, tf2'.
  split; [assumption|]. split; [assumption|]. split; [assumption|].
  split; [apply wait_blocks; rewrite Hword2; reflexivity|].
  split.
  - pose proof (loop_shape P e cb Hcb
                  [{| flags := GameThreadFlagUpdate; events := events1;
                      cyccnt := cyccnt1 |};
                   {| flags := GameThreadFlagStop; events := events2;
                      cyccnt := cyccnt2 |}]
                  (initial_locals e cyccnt0)) as (_ & Hcount & Hout).
    unfold game_engine_run.
    match goal with
    | |- context [loop P e ?ws ?l] => destruct (loop P e ws l) as [calls out]
    end.
    cbn [fst snd observed flags] in Hcount, Hout.
    rewrite Hu, Hs in Hcount, Hout.
    cbn in Hcount, Hout. subst out.
    rewrite !callback_calls_app, Hcount. split; reflexivity.
  - pose proof (loop_shape P e cb Hcb
                  [{| flags := GameThreadFlagUpdate; events := events1;
                      cyccnt := cyccnt1 |};
                   {| flags := GameThreadFlagMask; events := events2;
                      cyccnt := cyccnt2 |}]
                  (initial_locals e cyccnt0)) as (_ & Hcount & Hout).
    unfold game_engine_run.
    match goal with
    | |- context [loop P e ?ws ?l] => destruct (loop P e ws l) as [calls out]
    end.
    cbn [fst snd observed flags] in Hcount, Hout.
    rewrite Hu, Hm in Hcount, Hout.
    cbn in Hcount, Hout. subst out.
    rewrite !callback_calls_app, Hcount. split; reflexivity.
Qed.

Lemma stop_from_callback_ends_run_after_frame_witness :
  let '(calls, out) :=
    game_engine_run flipper e_demo 0
      [{| flags := GameThreadFlagUpdate; events := []; cyccnt := 1000 |};
       {| flags := GameThreadFlagStop; events := []; cyccnt := 2000 |}] in
  callback_calls calls = 1%nat /\ out = Returned.
Proof.
  destruct (stop_from_callback_ends_run_after_frame
              flipper e_demo 1%positive 0 (fun _ => 0) F32.zero [] [] 1000 2000
              eq_refl eq_refl eq_refl)
    as (tf1 & tf2 & tf2' & _ & _ & _ & _ & Hone & _).
  exact Hone.
Defined.

(** ** Returns of the wait with no flag *)

Lemma loop_after_prefix (P : Platform) (e : GameEngine) (a b : list Wake) :
  (forall l, loop P e a l = loop P e b l) ->
  forall pre l, loop P e (pre ++ a) l = loop P e (pre ++ b) l.
Proof.
  intros Hab. induction pre as [|w pre IH]; intros l; cbn [app]; [apply Hab|].
  cbn [loop].
  destruct (flag_set (flags w) (FuriFlagError P)); [reflexivity|].
  destruct (if flag_set (flags w) GameThreadFlagUpdate then _ else _)
    as [calls [l1|]]; [|reflexivity].
  destruct (flag_set (flags w) GameThreadFlagStop); [reflexivity|].
  now rewrite IH.
Qed.

Lemma loop_idle (P : Platform) (e : GameEngine) (idle : Wake) (rest : list Wake)
      (l : Locals) :
  flag_set (flags idle) (FuriFlagError P) = false ->
  flag_set (flags idle) GameThreadFlagUpdate = false ->
  flag_set (flags idle) GameThreadFlagStop = false ->
  loop P e (idle :: rest) l = loop P e rest (on_wake P idle l).
Proof.
  intros Herr Hupdate Hstop. cbn [loop]. rewrite Herr, Hupdate, Hstop.
  fold (on_wake P idle l). now destruct (loop P e rest (on_wake P idle l)).
Qed.

(** X18: a return of the wait with none of the three flags does nothing
    but let the events delivered so far into the accumulator: the run
    goes on as if the wait had not returned and the events had come
    before the next return. *)
Theorem wake_without_flags_is_harmless
        (P : Platform) (e : GameEngine) (cyccnt0 : Z)
        (pre : list Wake) (idle w : Wake) (rest : list Wake)
        (Herr : flag_set (flags idle) (FuriFlagError P) = false)
        (Hupdate : flag_set (flags idle) GameThreadFlagUpdate = false)
        (Hstop : flag_set (flags idle) GameThreadFlagStop = false) :
  game_engine_run P e cyccnt0 (pre ++ idle :: w :: rest) =
  game_engine_run P e cyccnt0
    (pre ++ {| flags := flags w;
               events := events idle ++ events w;
               cyccnt := cyccnt w |} :: rest).
Proof.
  unfold game_engine_run.
  rewrite (loop_after_prefix P e (idle :: w :: rest)
             ({| flags := flags w; events := events idle ++ events w;
                 cyccnt := cyccnt w |} :: rest)); [reflexivity|].
  intros l. rewrite (loop_idle P e idle (w :: rest) l Herr Hupdate Hstop).
  cbn [loop flags events cyccnt on_wake run input_state input_prev_state time_start].
  now rewrite deliver_app.
Qed.

Lemma wake_without_flags_is_harmless_witness :
  game_engine_run flipper e_demo 0
    ([] ++ {| flags := 4; events := [{| key := 4; type := InputTypePress |}];
              cyccnt := 500 |}
        :: {| flags := 3; events := []; cyccnt := 1000 |} :: []) =
  game_engine_run flipper e_demo 0
    ([] ++ {| flags := 3;
              events := [{| key := 4; type := InputTypePress |}] ++ [];
              cyccnt := 1000 |} :: []).
Proof.
  exact (wake_without_flags_is_harmless flipper e_demo 0 []
           {| flags := 4; events := [{| key := 4; type := InputTypePress |}];
              cyccnt := 500 |}
           {| flags := 3; events := []; cyccnt := 1000 |} []
           eq_refl eq_refl eq_refl).
Defined.

(** ** The table of keys *)

Lemma array_set_length (i : nat) (v : Z) (a : list Z) :
  List.length (array_set i v a) = List.length a.
Proof.
  revert i. induction a as [|h t IH]; intros [|j]; cbn [array_set List.length];
    try reflexivity.
  now rewrite IH.
Qed.

Lemma nth_array_set_same (i : nat) (v : Z) (a : list Z) :
  (i < List.length a)%nat -> nth i (array_set i v a) 0 = v.
Proof.
  revert i. induction a as [|h t IH]; intros [|j] Hi; cbn [List.length] in Hi;
    cbn [array_set nth]; try lia; try reflexivity.
  apply IH. lia.
Qed.

Lemma nth_array_set_other (i j : nat) (v : Z) (a : list Z) :
  i <> j -> nth j (array_set i v a) 0 = nth j a 0.
Proof.
  revert i j. induction a as [|h t IH]; intros [|i] [|j] Hne;
    cbn [array_set nth]; try reflexivity; try contradiction.
  apply IH. lia.
Qed.

Lemma designated_fill (inits : list (nat * Z)) (a : list Z) :
  let filled := fold_left (fun a iv => array_set (fst iv) (snd iv) a) inits a in
  List.length filled = List.length a /\
  (forall j, (forall iv, In iv inits -> fst iv <> j) -> nth j filled 0 = nth j a 0) /\
  (NoDup (map fst inits) ->
   forall i v, In (i, v) inits -> (i < List.length a)%nat -> nth i filled 0 = v).
Proof.
  revert a. induction inits as [|[i0 v0] inits IH]; intros a; cbn [fold_left fst snd].
  - repeat split; try reflexivity. intros _ i v [].
  - destruct (IH (array_set i0 v0 a)) as (Hlen & Hgap & Hset). cbv zeta in *.
    rewrite array_set_length in *. split; [assumption|]. split.
    + intros j Hj. rewrite Hgap.
      * apply nth_array_set_other. apply (Hj (i0, v0)). left. reflexivity.
      * intros iv Hin. apply Hj. right. assumption.
    + intros Hnd i v Hin Hi. cbn [map fst] in Hnd.
      inversion Hnd as [|x xs Hnotin Hnd']; subst.
      destruct Hin as [Heq | Hin].
      * inversion Heq; subst. rewrite Hgap.
        -- now apply nth_array_set_same.
        -- intros iv Hiv Hfst. apply Hnotin. rewrite <- Hfst. now apply in_map.
      * now apply Hset.
Qed.

Lemma designated_size (inits : list (nat * Z)) (i : nat) (v : Z) :
  In (i, v) inits ->
  (i < fold_right (fun iv n => Nat.max (S (fst iv)) n) O inits)%nat.
Proof.
  induction inits as [|iv inits IH]; intros Hin; [destruct Hin|].
  cbn [fold_right]. destruct Hin as [-> | Hin].
  - cbn [fst]. lia.
  - specialize (IH Hin). lia.
Qed.

(** X19: the table maps every raw key to the logical key of the same
    name, whatever numbers the firmware gives the raw keys, as long as no
    two of them have the same number; every raw key is inside the table,
    and a number inside the table that is no raw key of the table is
    mapped to no key at all. *)
Theorem keys_table_lookup
        (P : Platform)
        (Hdistinct : forall a b, InputKey_code P a = InputKey_code P b -> a = b) :
  (forall k : InputKey,
      0 <= Z.of_nat (InputKey_code P k) < keys_count P /\
      keys_at P (Z.of_nat (InputKey_code P k)) = GameKey_value P (game_key_of k)) /\
  (forall i : nat,
      (forall k, InputKey_code P k <> i) -> keys_at P (Z.of_nat i) = 0).
Proof.
  unfold keys_count, keys_at, keys, designated. cbv zeta.
  match goal with
  | |- context [fold_left _ ?inits (repeat 0 _)] => set (table := inits)
  end.
  set (n := fold_right (fun (iv : nat * Z) n => Nat.max (S (fst iv)) n) O table).
  destruct (designated_fill table (repeat 0 n)) as (Hlen & Hgap & Hset).
  cbv zeta in *. rewrite repeat_length in *.
  assert (Hin : forall k, In (InputKey_code P k, GameKey_value P (game_key_of k)) table).
  { intros k. unfold table. destruct k; cbn [game_key_of In]; auto 10. }
  assert (Hnd : NoDup (map fst table)).
  { unfold table. cbn [map fst].
    repeat (constructor;
            [cbn [In]; intros H;
             repeat (destruct H as [H | H]; [apply Hdistinct in H; discriminate|]);
             exact H|]).
    constructor. }
  split.
  - intros k. rewrite Nat2Z.id, Hlen.
    pose proof (designated_size table _ _ (Hin k)) as Hsize. fold n in Hsize.
    split; [lia|].
    apply Hset; [assumption | apply Hin | assumption].
  - intros i Hi. rewrite Nat2Z.id, Hgap.
    + apply nth_repeat.
    + intros iv Hiv. unfold table in Hiv. cbn [In] in Hiv.
      repeat (destruct Hiv as [<- | Hiv]; [apply Hi|]). destruct Hiv.
Qed.

Lemma keys_table_lookup_witness :
  0 <= Z.of_nat (InputKey_code flipper InputKeyOk) < keys_count flipper /\
  keys_at flipper (Z.of_nat (InputKey_code flipper InputKeyOk)) = 16.
Proof.
  refine (proj1 (keys_table_lookup flipper _) InputKeyOk).
  intros a b. destruct a, b; intros H; try reflexivity; discriminate H.
Defined.

(* ================================================================== *)
(** * The frames of a run, one by one *)

Lemma last_cons {A : Type} (a : A) (l : list A) (d : A) :
  last (a :: l) d = last l a.
Proof.
  revert a d. induction l as [|b l IH]; intros a d; [reflexivity|].
  change (last (a :: b :: l) d) with (last (b :: l) d).
  now rewrite !IH.
Qed.

Lemma last_map {A B : Type} (f : A -> B) (l : list A) (d : A) :
  last (map f l) (f d) = f (last l d).
Proof.
  revert d. induction l as [|a l IH]; intros d; [reflexivity|].
  cbn [map]. rewrite !last_cons. apply IH.
Qed.

Lemma callback_inputs_app (a b : list Effect) :
  callback_inputs (a ++ b) = callback_inputs a ++ callback_inputs b.
Proof.
  induction a as [|c a IH]; [reflexivity|].
  destruct c; cbn [callback_inputs app]; rewrite IH; reflexivity.
Qed.

Lemma last_app_cons {A : Type} (l1 l2 : list A) (a d : A) :
  last ((a :: l1) ++ l2) d = last (l1 ++ l2) a.
Proof.
  cbn [app]. apply last_cons.
Qed.

(** The locals after a stretch of returns of the wait that keep the loop
    running, told from what was delivered: the accumulator has taken all
    the events, the previous snapshot is the [held] mask of the last
    frame, and the start of the measure is the counter read in the last
    frame; where there was no frame, both are what they were. *)
Lemma loop_running_locals (P : Platform) (e : GameEngine) (cb : Callback) :
  callback (settings e) = Some cb ->
  forall pre l,
    Forall (keeps_running P) pre ->
    exists calls l',
      loop P e pre l = (calls, Waiting) /\
      (forall rest,
          loop P e (pre ++ rest) l =
            (calls ++ fst (loop P e rest l'), snd (loop P e rest l'))) /\
      engine (run l') = engine (run l) /\
      input_state l' = deliver P (List.concat (map events pre)) (input_state l) /\
      input_prev_state l' =
        last (map held (callback_inputs calls)) (input_prev_state l) /\
      time_start l' =
        last (map (fun w => U32.wrap (cyccnt w)) (filter is_update pre))
             (time_start l) /\
      callback_calls calls = updates pre.
Proof.
  intros Hcb. induction pre as [|w pre IH]; intros l Hpre.
  - exists [], l. cbn. repeat split; try reflexivity.
    intros rest. now destruct (loop P e rest l).
  - inversion Hpre as [|w' pre' [Herr Hstop] Hrest]; subst.
    assert (Hsplit : forall rest, loop P e ((w :: pre) ++ rest) l =
                                  loop P e (w :: pre ++ rest) l) by reflexivity.
    destruct (loop_step P e cb w pre l Hcb) as (calls_w & l1 & Hframe & Hloop).
    rewrite Herr, Hstop in Hloop.
    assert (Hrests : forall rest,
               loop P e (w :: pre ++ rest) l =
                 (calls_w ++ fst (loop P e (pre ++ rest) l1),
                  snd (loop P e (pre ++ rest) l1))).
    { intros rest.
      destruct (loop_step P e cb w (pre ++ rest) l Hcb)
        as (calls_w' & l1' & Hframe' & Hloop').
      rewrite Herr, Hstop in Hloop'. rewrite Hloop'.
      destruct (flag_set (flags w) GameThreadFlagUpdate).
      - rewrite Hframe in Hframe'. now inversion Hframe'.
      - destruct Hframe as [-> ->], Hframe' as [-> ->]. reflexivity. }
    destruct (IH l1 Hrest) as (calls & l' & Hpre_loop & Happ & He & Hacc & Hprev
                               & Hstart & Hcount).
    exists (calls_w ++ calls), l'.
    rewrite Hloop, Hpre_loop. cbn [fst snd].
    split; [reflexivity|]. split.
    { intros rest. rewrite Hsplit, Hrests, Happ. cbn [fst snd].
      now rewrite app_assoc. }
    rewrite callback_inputs_app, map_app, callback_calls_app.
    rewrite He, Hacc, Hprev, Hstart, Hcount.
    cbn [map List.concat filter]. fold (is_update w). rewrite updates_cons.
    unfold is_update in *.
    destruct (flag_set (flags w) GameThreadFlagUpdate).
    + rewrite (frame_callback P e w (on_wake P w l) cb Hcb) in Hframe.
      cbv zeta in Hframe. injection Hframe as <- <-.
      cbn [run engine input_state input_prev_state time_start on_wake].
      rewrite deliver_app.
      repeat split; try reflexivity.
      * destruct (show_fps (settings e)); cbn [app callback_inputs map];
          rewrite last_cons; reflexivity.
      * cbn [map]. now rewrite last_cons.
      * destruct (show_fps (settings e)); cbn [app callback_calls]; lia.
    + destruct Hframe as [-> ->].
      cbn [run engine input_state input_prev_state time_start on_wake app
           callback_inputs map callback_calls].
      rewrite deliver_app. repeat split; reflexivity.
Qed.

(** The frame of a return of the wait with the update flag, reached
    through returns that keep the loop running: the handle and the input
    of its call of the callback, told from what was delivered and from
    the calls made before. *)
Lemma run_frame (P : Platform) (e : GameEngine) (cb : Callback) (cyccnt0 : Z)
      (pre : list Wake) (w : Wake) (post : list Wake) :
  callback (settings e) = Some cb ->
  Forall (keeps_running P) pre ->
  flag_set (flags w) (FuriFlagError P) = false ->
  flag_set (flags w) GameThreadFlagUpdate = true ->
  exists before after,
    game_engine_run P e cyccnt0 pre = (setup e ++ before, Waiting) /\
    callback_calls before = updates pre /\
    fst (game_engine_run P e cyccnt0 (pre ++ w :: post)) =
      setup e ++ before
        ++ CanvasReset
        :: ClientCallback cb
             {| engine := e;
                run_fps :=
                  actual_fps (SystemCoreClock P)
                    (time_delta_of
                       (U32.wrap (cyccnt w))
                       (U32.wrap (last (map cyccnt (filter is_update pre))
                                       cyccnt0))) |}
             (read_input
                (deliver P (List.concat (map events (pre ++ [w]))) 0)
                (last (map held (callback_inputs before)) 0))
             (context (settings e))
        :: after.
Proof.
  intros Hcb Hpre Herr Hupdate.
  destruct (loop_running_locals P e cb Hcb pre (initial_locals e cyccnt0) Hpre)
    as (before & l' & Hloop & Happ & He & Hacc & Hprev & Hstart & Hcount).
  exists before.
  destruct (loop_step P e cb w post l' Hcb) as (calls_w & l1 & Hframe & Hw).
  rewrite Herr in Hw. rewrite Hupdate in Hframe.
  rewrite (frame_callback P e w (on_wake P w l') cb Hcb) in Hframe.
  cbv zeta in Hframe. injection Hframe as <- _.
  cbn [on_wake run input_state input_prev_state time_start] in Hw.
  rewrite He, Hacc, Hprev, Hstart in Hw.
  cbn [initial_locals run engine input_state input_prev_state time_start] in Hw.
  rewrite <- deliver_app in Hw.
  unfold game_engine_run. rewrite Hloop, Happ, Hw.
  rewrite map_app, concat_app. cbn [map List.concat]. rewrite !app_nil_r.
  rewrite <- (map_map cyccnt U32.wrap), (last_map U32.wrap) in *.
  destruct (flag_set (flags w) GameThreadFlagStop); cbn [fst snd];
    eexists; (split; [reflexivity|]); (split; [assumption|]);
    rewrite <- (app_assoc before); do 2 f_equal; cbn [app]; reflexivity.
Qed.

Lemma events_up_to (pre : list Wake) (w : Wake) :
  List.concat (map events (pre ++ [w])) = List.concat (map events pre) ++ events w.
Proof.
  rewrite map_app, concat_app. cbn [map List.concat]. now rewrite app_nil_r.
Qed.

(** ** The claims on the frames of a run *)

(** C3: in every frame of a run the callback receives [held = current],
    [pressed = current & ~previous] and [released = ~current & previous],
    where [current] is the accumulator, with all the events delivered so
    far in it, and [previous] is the [held] mask that the frame before
    received, 0 in the first frame: each frame keeps its [current] as the
    [previous] of the next.  With {Up} held before and {Up, Down} now,
    Down alone is pressed and nothing is released; with {Ok} held before
    and nothing now, Ok alone is released. *)
Theorem run_derives_input_state
        (P : Platform) (e : GameEngine) (cb : Callback) (cyccnt0 : Z)
        (pre : list Wake) (w : Wake) (post : list Wake)
        (Hcb : callback (settings e) = Some cb)
        (Hpre : Forall (keeps_running P) pre)
        (Herr : flag_set (flags w) (FuriFlagError P) = false)
        (Hupdate : flag_set (flags w) GameThreadFlagUpdate = true)
        (Hup : U32.in_range (GameKey_value P GameKeyUp))
        (Hdown : U32.in_range (GameKey_value P GameKeyDown))
        (Hok : U32.in_range (GameKey_value P GameKeyOk))
        (Hdistinct : Z.land (GameKey_value P GameKeyUp)
                            (GameKey_value P GameKeyDown) = 0) :
  (exists before r after,
      let current_held := deliver P (List.concat (map events (pre ++ [w]))) 0 in
      let previous_held := last (map held (callback_inputs before)) 0 in
      game_engine_run P e cyccnt0 pre = (setup e ++ before, Waiting) /\
      callback_calls before = updates pre /\
      fst (game_engine_run P e cyccnt0 (pre ++ w :: post)) =
        setup e ++ before
          ++ CanvasReset
          :: ClientCallback cb r
               {| held := current_held;
                  pressed := Z.land current_held (U32.not previous_held);
                  released := Z.land (U32.not current_held) previous_held |}
               (context (settings e))
          :: after) /\
  read_input (mask_of P [GameKeyUp; GameKeyDown]) (mask_of P [GameKeyUp]) =
    {| held := mask_of P [GameKeyUp; GameKeyDown];
       pressed := mask_of P [GameKeyDown];
       released := mask_of P [] |} /\
  read_input (mask_of P []) (mask_of P [GameKeyOk]) =
    {| held := mask_of P [];
       pressed := mask_of P [];
       released := mask_of P [GameKeyOk] |}.
Proof.
  split; [|split].
  - destruct (run_frame P e cb cyccnt0 pre w post Hcb Hpre Herr Hupdate)
      as (before & after & Hrun & Hcount & Htrace).
    exists before. eexists _, after. cbv zeta.
    split; [assumption|]. split; [assumption|]. exact Htrace.
  - unfold read_input. cbn [mask_of fold_right]. rewrite !Z.lor_0_r.
    f_equal.
    + now apply pressed_new_keys.
    + apply released_none. mask_bits i.
      destruct (Z.testbit (GameKey_value P GameKeyUp) i),
               (Z.testbit (GameKey_value P GameKeyDown) i); reflexivity.
  - unfold read_input. cbn [mask_of fold_right]. rewrite !Z.lor_0_r.
    f_equal. now apply not_zero_land.
Qed.

Lemma run_derives_input_state_witness :
  exists before r after,
    game_engine_run flipper e_demo 0
      [{| flags := 1; events := [{| key := 0; type := InputTypePress |}];
          cyccnt := 1000 |}] = (setup e_demo ++ before, Waiting) /\
    callback_calls before = 1%nat /\
    last (map held (callback_inputs before)) 0 = 1 /\
    fst (game_engine_run flipper e_demo 0
           ([{| flags := 1; events := [{| key := 0; type := InputTypePress |}];
                cyccnt := 1000 |}]
              ++ {| flags := 1; events := [{| key := 1; type := InputTypePress |}];
                    cyccnt := 2000 |} :: [])) =
      setup e_demo ++ before
        ++ CanvasReset
        :: ClientCallback 1%positive r
             {| held := 3; pressed := 2; released := 0 |} None
        :: after.
Proof.
  destruct (run_derives_input_state
              flipper e_demo 1%positive 0
              [{| flags := 1; events := [{| key := 0; type := InputTypePress |}];
                  cyccnt := 1000 |}]
              {| flags := 1; events := [{| key := 1; type := InputTypePress |}];
                 cyccnt := 2000 |} []
              eq_refl
              ltac:(constructor; [split; reflexivity | constructor])
              eq_refl eq_refl)
    as [(before & r & after & Hrun & Hcount & Htrace) _].
  - vm_compute. split; [discriminate | reflexivity].
  - vm_compute. split; [discriminate | reflexivity].
  - vm_compute. split; [discriminate | reflexivity].
  - reflexivity.
  - assert (Hbefore : last (map held (callback_inputs before)) 0 = 1).
    { assert (Hconcrete :
        game_engine_run flipper e_demo 0
          [{| flags := 1; events := [{| key := 0; type := InputTypePress |}];
              cyccnt := 1000 |}] =
        (setup e_demo
           ++ [CanvasReset;
               ClientCallback 1%positive
                 {| engine := e_demo; run_fps := actual_fps 64000000 1000 |}
                 {| held := 1; pressed := 1; released := 0 |} None;
               CanvasSetColorXOR;
               CanvasPrintf 0 7 "%u"
                 (F32.roundf_to_u32 (actual_fps 64000000 1000));
               CanvasCommit], Waiting)) by reflexivity.
      rewrite Hconcrete in Hrun. injection Hrun as Hb.
      subst before. reflexivity. }
    exists before, r, after.
    split; [assumption|]. split; [assumption|]. split; [assumption|].
    rewrite Htrace, Hbefore. reflexivity.
Defined.

(** C7: in every frame of a run the elapsed count is the 32-bit
    difference [(now - start) mod 2^32], where [now] is the cycle counter
    read in the frame and [start] the one read in the frame before (before
    the loop, for the first frame): each frame leaves its [now] as the
    [start] of the next.  When the counter, counted without wrap-around,
    went from [T0] to [T1] with fewer than [2^32] cycles in between, the
    difference is [T1 - T0], also when the counter wrapped between the two
    readings; the rate of the frame is measured from it. *)
Theorem run_measures_elapsed_cycles
        (P : Platform) (e : GameEngine) (cb : Callback) (cyccnt0 : Z)
        (pre : list Wake) (w : Wake) (post : list Wake) (T0 T1 : Z)
        (Hcb : callback (settings e) = Some cb)
        (Hpre : Forall (keeps_running P) pre)
        (Herr : flag_set (flags w) (FuriFlagError P) = false)
        (Hupdate : flag_set (flags w) GameThreadFlagUpdate = true)
        (Hstart : U32.wrap (last (map cyccnt (filter is_update pre)) cyccnt0)
                  = U32.wrap T0)
        (Hnow : U32.wrap (cyccnt w) = U32.wrap T1)
        (Helapsed : 0 <= T1 - T0 < U32.modulus) :
  let time_start := U32.wrap (last (map cyccnt (filter is_update pre)) cyccnt0) in
  let time_end := U32.wrap (cyccnt w) in
  time_delta_of time_end time_start = (time_end - time_start) mod 2 ^ 32 /\
  time_delta_of time_end time_start = T1 - T0 /\
  exists before r input after,
    game_engine_run P e cyccnt0 pre = (setup e ++ before, Waiting) /\
    callback_calls before = updates pre /\
    fst (game_engine_run P e cyccnt0 (pre ++ w :: post)) =
      setup e ++ before
        ++ CanvasReset :: ClientCallback cb r input (context (settings e))
        :: after /\
    run_fps r = actual_fps (SystemCoreClock P)
                           (time_delta_of time_end time_start) /\
    run_fps r = actual_fps (SystemCoreClock P) (T1 - T0).
Proof.
  intros time_start time_end.
  assert (Hdelta : time_delta_of time_end time_start = T1 - T0).
  { unfold time_end, time_start. rewrite Hstart, Hnow.
    unfold time_delta_of, U32.sub, U32.wrap.
    rewrite <- Zminus_mod. now apply Z.mod_small. }
  split; [reflexivity|]. split; [assumption|].
  destruct (run_frame P e cb cyccnt0 pre w post Hcb Hpre Herr Hupdate)
    as (before & after & Hrun & Hcount & Htrace).
  exists before. eexists _, _, after.
  split; [assumption|]. split; [assumption|]. split; [exact Htrace|].
  cbn [run_fps]. fold time_start time_end. rewrite Hdelta. split; reflexivity.
Qed.

Lemma run_measures_elapsed_cycles_witness :
  exists before r input after,
    game_engine_run flipper e_demo 0
      [{| flags := 1; events := []; cyccnt := 4294967000 |}]
      = (setup e_demo ++ before, Waiting) /\
    callback_calls before = 1%nat /\
    fst (game_engine_run flipper e_demo 0
           ([{| flags := 1; events := []; cyccnt := 4294967000 |}]
              ++ {| flags := 1; events := []; cyccnt := 704 |} :: [])) =
      setup e_demo ++ before
        ++ CanvasReset :: ClientCallback 1%positive r input None :: after /\
    run_fps r = actual_fps 64000000 1000.
Proof.
  destruct (run_measures_elapsed_cycles
              flipper e_demo 1%positive 0
              [{| flags := 1; events := []; cyccnt := 4294967000 |}]
              {| flags := 1; events := []; cyccnt := 704 |} []
              4294967000 4294968000
              eq_refl
              ltac:(constructor; [split; reflexivity | constructor])
              eq_refl eq_refl eq_refl eq_refl)
    as (_ & _ & before & r & input & after & Hrun & Hcount & Htrace & _ & Hrate).
  - vm_compute. split; [discriminate | reflexivity].
  - exists before, r, input, after. auto.
Defined.

(** C1, amended: [delta_time] is one over the rate stored in the handle,
    whatever the engine and its configured rate; and in every frame of a
    run the rate in the handle passed to the callback is the one measured
    for that frame: the core clock frequency divided by the cycles elapsed
    since the frame before (since the start of the run, for the first
    frame). *)
Theorem delta_time_is_time_of_frame
        (P : Platform) (e : GameEngine) (cb : Callback) (cyccnt0 : Z)
        (pre : list Wake) (w : Wake) (post : list Wake)
        (Hcb : callback (settings e) = Some cb)
        (Hpre : Forall (keeps_running P) pre)
        (Herr : flag_set (flags w) (FuriFlagError P) = false)
        (Hupdate : flag_set (flags w) GameThreadFlagUpdate = true) :
  (forall r, running_game_engine_get_delta_time r = F32.div F32.one (run_fps r)) /\
  (forall e1 e2 measured,
      running_game_engine_get_delta_time {| engine := e1; run_fps := measured |} =
      running_game_engine_get_delta_time {| engine := e2; run_fps := measured |}) /\
  exists before r input after,
    let time_delta :=
      time_delta_of (U32.wrap (cyccnt w))
                    (U32.wrap (last (map cyccnt (filter is_update pre)) cyccnt0)) in
    game_engine_run P e cyccnt0 pre = (setup e ++ before, Waiting) /\
    callback_calls before = updates pre /\
    fst (game_engine_run P e cyccnt0 (pre ++ w :: post)) =
      setup e ++ before
        ++ CanvasReset :: ClientCallback cb r input (context (settings e))
        :: after /\
    run_fps r =
      F32.div (F32.of_u32 (U32.wrap (SystemCoreClock P))) (F32.of_u32 time_delta) /\
    running_game_engine_get_delta_time r =
      F32.div F32.one
        (F32.div (F32.of_u32 (U32.wrap (SystemCoreClock P)))
                 (F32.of_u32 time_delta)).
Proof.
  split; [reflexivity|]. split; [reflexivity|].
  destruct (run_frame P e cb cyccnt0 pre w post Hcb Hpre Herr Hupdate)
    as (before & after & Hrun & Hcount & Htrace).
  exists before. eexists _, _, after. cbv zeta.
  split; [assumption|]. split; [assumption|]. split; [exact Htrace|].
  split; reflexivity.
Qed.

Lemma delta_time_is_time_of_frame_witness :
  exists before r input after,
    fst (game_engine_run flipper e_demo 1000
           ([] ++ {| flags := 3; events := []; cyccnt := 2134333 |} :: [])) =
      setup e_demo ++ before
        ++ CanvasReset :: ClientCallback 1%positive r input None :: after /\
    run_fps r = F32.div (F32.of_u32 64000000) (F32.of_u32 2133333) /\
    running_game_engine_get_delta_time r = S754_finite false 8947847 (-28).
Proof.
  destruct (delta_time_is_time_of_frame
              flipper e_demo 1%positive 1000 []
              {| flags := 3; events := []; cyccnt := 2134333 |} []
              eq_refl (Forall_nil _) eq_refl eq_refl)
    as (_ & _ & before & r & input & after & _ & _ & Htrace & Hrate & Htime).
  exists before, r, input, after.
  split; [exact Htrace|]. split; [exact Hrate|]. rewrite Htime. reflexivity.
Defined.

(** ** A tap between two frames *)

(** X9: a key that is not held and is pressed and released again before
    the loop reads the accumulator is lost: the run is the same, call for
    call, as without the two events, and the frame that follows reports
    the key neither as held nor as pressed, and not as released either
    when the frame before did not report it as held. *)
Theorem tap_between_frames_is_lost
        (P : Platform) (e : GameEngine) (cb : Callback) (cyccnt0 : Z)
        (pre : list Wake) (w : Wake) (post : list Wake) (k : Z)
        (Hcb : callback (settings e) = Some cb)
        (Hpre : Forall (keeps_running P) pre)
        (Herr : flag_set (flags w) (FuriFlagError P) = false)
        (Hupdate : flag_set (flags w) GameThreadFlagUpdate = true)
        (Hup : Z.land (deliver P (List.concat (map events (pre ++ [w]))) 0)
                      (U32.wrap (keys_at P (U32.wrap k))) = 0) :
  let tapped :=
    {| flags := flags w;
       events := events w ++ [{| key := k; type := InputTypePress |};
                              {| key := k; type := InputTypeRelease |}];
       cyccnt := cyccnt w |} in
  let bits := U32.wrap (keys_at P (U32.wrap k)) in
  game_engine_run P e cyccnt0 (pre ++ tapped :: post) =
    game_engine_run P e cyccnt0 (pre ++ w :: post) /\
  exists before r input after,
    game_engine_run P e cyccnt0 pre = (setup e ++ before, Waiting) /\
    callback_calls before = updates pre /\
    fst (game_engine_run P e cyccnt0 (pre ++ tapped :: post)) =
      setup e ++ before
        ++ CanvasReset :: ClientCallback cb r input (context (settings e))
        :: after /\
    Z.land (held input) bits = 0 /\
    Z.land (pressed input) bits = 0 /\
    (Z.land (last (map held (callback_inputs before)) 0) bits = 0 ->
     Z.land (released input) bits = 0).
Proof.
  intros tapped bits.
  assert (Hsame : game_engine_run P e cyccnt0 (pre ++ tapped :: post) =
                  game_engine_run P e cyccnt0 (pre ++ w :: post)).
  { unfold game_engine_run.
    destruct (loop_running_locals P e cb Hcb pre (initial_locals e cyccnt0) Hpre)
      as (before & l' & _ & Happ & _ & Hacc & _).
    rewrite !Happ.
    assert (Hloop : loop P e (tapped :: post) l' = loop P e (w :: post) l').
    { cbn [loop tapped flags events cyccnt].
      assert (Hdeliver :
        deliver P (events w ++ [{| key := k; type := InputTypePress |};
                               {| key := k; type := InputTypeRelease |}])
                (input_state l') = deliver P (events w) (input_state l')).
      { rewrite Hacc. cbn [initial_locals input_state].
        rewrite <- !deliver_app, app_assoc.
        rewrite events_up_to in Hup.
        now apply tap_leaves_accumulator. }
      rewrite Hdeliver. reflexivity. }
    rewrite Hloop. reflexivity. }
  split; [exact Hsame|].
  rewrite Hsame.
  destruct (run_frame P e cb cyccnt0 pre w post Hcb Hpre Herr Hupdate)
    as (before & after & Hrun & Hcount & Htrace).
  exists before. eexists _, _, after.
  split; [assumption|]. split; [assumption|]. split; [exact Htrace|].
  cbn [read_input held pressed released].
  set (current := deliver P (List.concat (map events (pre ++ [w]))) 0) in *.
  set (previous := last (map held (callback_inputs before)) 0).
  assert (Hcur : forall i, Z.testbit current i && Z.testbit bits i = false).
  { intros i. rewrite <- Z.land_spec. fold bits in Hup. rewrite Hup. apply Z.bits_0. }
  split; [exact Hup|]. split.
  - mask_bits i. pose proof (Hcur i) as Hc.
    destruct (Z.testbit current i), (Z.testbit bits i), (Z.testbit previous i),
             (i <? 32); simpl in *; congruence.
  - intros Hprev. mask_bits i.
    assert (Hp : Z.testbit previous i && Z.testbit bits i = false)
      by (rewrite <- Z.land_spec, Hprev; apply Z.bits_0).
    destruct (Z.testbit current i), (Z.testbit bits i), (Z.testbit previous i),
             (i <? 32); simpl in *; congruence.
Qed.

Lemma tap_between_frames_is_lost_witness :
  game_engine_run flipper e_demo 0
    ([] ++ {| flags := 1;
              events := [{| key := 0; type := InputTypePress |}]
                          ++ [{| key := 1; type := InputTypePress |};
                              {| key := 1; type := InputTypeRelease |}];
              cyccnt := 1000 |} :: []) =
  game_engine_run flipper e_demo 0
    ([] ++ {| flags := 1; events := [{| key := 0; type := InputTypePress |}];
              cyccnt := 1000 |} :: []).
Proof.
  apply (tap_between_frames_is_lost
           flipper e_demo 1%positive 0 []
           {| flags := 1; events := [{| key := 0; type := InputTypePress |}];
              cyccnt := 1000 |} [] 1);
    try reflexivity.
  constructor.
Defined.
